(** * Random paving patterns

    A shallow embedding of [pavPattern] from [Random_Paving_Patterns.py] and
    the properties of its size catalog, its stacking phase and its
    gap-closing phase.

    Lengths.  The script computes with Python floats.  Every length it
    handles is a sum or difference of catalog heights, compared against the
    two tolerances 0.001 and 1e-6.  The model takes lengths as exact decimal
    fixed-point numbers: a [Z] counting units of 1e-6.  So 0.5 is [500000],
    3.0 is [3000000], the loop guard 0.001 is [1000] and the equality
    tolerance 1e-6 is [1].  For the constants of the script (all heights
    multiples of 0.5) float arithmetic is exact and agrees with the model:
    every length of a run is a multiple of 0.5, such floats and their sums
    and differences carry no rounding, and every comparison of the script
    is decided as the model decides it.  A statement made for other catalog
    constants, or for a column state off that grid, is a statement about
    exact arithmetic: a float quotient or difference may there round to the
    other side of a comparison, as [(0.7 - 0.5) / 0.1] rounds below 2 and
    [3.0 - 2.999] below 0.001.

    Randomness.  The module [random] is an oracle [rng : nat -> nat] read at
    a cursor kept in the state: the n-th draw of the run reads [rng n].
    [randint a b] and [choice l] reduce the raw value modulo the size of
    their range, so every outcome of every draw is covered by some oracle.

    Host.  The Rhino document is part of the state: its layer table, the
    number of surfaces requested so far, and the trace of host calls.
    [rs.AddSrfPt] fails when the oracle [render] says so, and then returns
    [None].  The other host calls are recorded and always succeed: what the
    host does with a layer name it does not know is not modelled.

    Failures.  A run ends with [Ret], with [Raise] for an exception of the
    script's own operations (division by zero, a missing key, an index out
    of range, [max] or [random.choice] of an empty sequence, [randint] on an
    empty range), or with [OutOfFuel] when a [while] loop is cut short.

    The list [height_values], the catalog sizes from largest to smallest, is
    computed by the script and never read; it is left out. *)

From Stdlib Require Import ZArith List String Lia Bool DecimalString Sorted.
From Stdlib Require DecimalZ DecimalPos.
Import ListNotations.
Local Open Scope Z_scope.

(** ** Configuration constants *)

(** The three numbers the catalog is derived from.  In the script they are
    the literal [0.5], [bucket_size = 0.5] and [max_r = 3.0]. *)
Record config : Set := Config {
  base : Z;
  bucket_size : Z;
  max_r : Z
}.

Definition shipped : config :=
  {| base := 500000; bucket_size := 500000; max_r := 3000000 |}.

(** The loop guard [0.001] and the equality tolerance [1e-6]. *)
Definition guard_eps : Z := 1000.
Definition eq_eps : Z := 1.

(** ** Size catalog *)

(** [range(n)] of Python, for loop indices. *)
Definition range (n : Z) : list nat := seq 0 (Z.to_nat n).

(** [int((max_r - 0.5) / bucket_size) + 1]: true division, then truncation
    toward zero; [None] stands for [ZeroDivisionError].  The quotient is
    the exact one.  It is the float quotient of the script for its own
    constants, [2.5 / 0.5] being 5 without rounding; for constants whose
    float quotient rounds below an integer the script would count one
    bucket less than this definition. *)
Definition num_buckets (c : config) : option Z :=
  if bucket_size c =? 0 then None
  else Some (Z.quot (max_r c - base c) (bucket_size c) + 1).

(** [{i + 1: 0.5 + i * bucket_size for i in range(num_buckets)}], a dict in
    insertion order with distinct keys. *)
Definition bucket_heights (c : config) (nb : Z) : list (Z * Z) :=
  map (fun i => (Z.of_nat i + 1, base c + Z.of_nat i * bucket_size c)) (range nb).

(** [bucket_heights[bucket_index]] *)
Fixpoint lookup (bh : list (Z * Z)) (bucket_index : Z) : option Z :=
  match bh with
  | [] => None
  | (index, h) :: rest => if index =? bucket_index then Some h else lookup rest bucket_index
  end.

(** [str(bucket_index)] and the layer name built from it. *)
Definition str (z : Z) : string := NilZero.string_of_int (Z.to_int z).

Definition layer_of (bucket_index : Z) : string :=
  ("Height_Group_" ++ str bucket_index)%string.

(** ** Host calls and state *)

(** Where in the script a surface is requested: the stacking loop (with the
    bucket drawn), the catalog-fit branch of the gap loop (with the bucket
    chosen), the fallback branch, and the guard after the loop. *)
Inductive site : Set :=
| Stacked (bucket_index : Z)
| Fitted (bucket_index : Z)
| Fallback
| Residual.

Inductive event : Set :=
| AddLayer (layer_name : string)
| LayerColor (layer_name : string) (r_color g_color b_color : Z)
| AddSrfPt (at_site : site) (col : nat) (y0 y1 : Z) (srf : option nat)
| ObjectLayer (srf : nat) (layer_name : string).

Record state : Set := State {
  srfs : list (option nat);        (* the list the function returns *)
  y_bases : list Z;
  existing_layers : list string;
  drawn : nat;                     (* random values consumed so far *)
  created : nat;                   (* rs.AddSrfPt calls made so far *)
  layer_table : list string;       (* layers of the Rhino document *)
  trace : list event               (* host calls, oldest first *)
}.

(** The state when [pavPattern] is entered, in a document whose layer table
    is [layers]. *)
Definition boot (layers : list string) : state :=
  {| srfs := []; y_bases := []; existing_layers := []; drawn := 0%nat;
     created := 0%nat; layer_table := layers; trace := [] |}.

Inductive exn : Set := ZeroDivisionError | ValueError | IndexError | KeyError.

Inductive outcome (A : Type) : Type :=
| Ret (a : A)
| Raise (e : exn)
| OutOfFuel.
Arguments Ret {A} a.
Arguments Raise {A} e.
Arguments OutOfFuel {A}.

Definition M (A : Type) : Type := state -> outcome (A * state).

Definition ret {A} (a : A) : M A := fun s => Ret (a, s).

Definition bind {A B} (m : M A) (f : A -> M B) : M B :=
  fun s => match m s with
           | Ret (a, s') => f a s'
           | Raise e => Raise e
           | OutOfFuel => OutOfFuel
           end.

Definition raise {A} (e : exn) : M A := fun _ => Raise e.

Notation "x <- m ;; k" := (bind m (fun x => k))
  (at level 61, m at next level, right associativity).
Notation "' pat <- m ;; k" := (bind m (fun x => match x with pat => k end))
  (at level 61, pat pattern, m at next level, right associativity).
Notation "m ;; k" := (bind m (fun _ => k))
  (at level 61, right associativity).

Fixpoint for_each {A} (l : list A) (body : A -> M unit) : M unit :=
  match l with
  | [] => ret tt
  | x :: rest => body x ;; for_each rest body
  end.

Fixpoint for_collect {A B} (l : list A) (body : A -> M B) : M (list B) :=
  match l with
  | [] => ret []
  | x :: rest => b <- body x ;; bs <- for_collect rest body ;; ret (b :: bs)
  end.

Definition mem (x : string) (l : list string) : bool := existsb (String.eqb x) l.

Fixpoint set_nth (l : list Z) (i : nat) (v : Z) : list Z :=
  match l, i with
  | [], _ => []
  | _ :: rest, O => v :: rest
  | x :: rest, S j => x :: set_nth rest j v
  end.

(** *** Script locals *)

Definition init_locals (xNum : Z) : M unit := fun s =>
  Ret (tt, {| srfs := []; y_bases := map (fun _ => 0) (range xNum);
              existing_layers := []; drawn := drawn s; created := created s;
              layer_table := layer_table s; trace := trace s |}).

Definition get_layers : M (list string) := fun s => Ret (existing_layers s, s).

Definition register (layer_name : string) : M unit := fun s =>
  Ret (tt, {| srfs := srfs s; y_bases := y_bases s;
              existing_layers := existing_layers s ++ [layer_name];
              drawn := drawn s; created := created s;
              layer_table := layer_table s; trace := trace s |}).

Definition append_srf (srf : option nat) : M unit := fun s =>
  Ret (tt, {| srfs := srfs s ++ [srf]; y_bases := y_bases s;
              existing_layers := existing_layers s;
              drawn := drawn s; created := created s;
              layer_table := layer_table s; trace := trace s |}).

(** [y_bases[i]] read and written; an index out of range raises. *)
Definition load_y (i : nat) : M Z := fun s =>
  match nth_error (y_bases s) i with
  | Some y => Ret (y, s)
  | None => Raise IndexError
  end.

Definition store_y (i : nat) (v : Z) : M unit := fun s =>
  if (i <? List.length (y_bases s))%nat then
    Ret (tt, {| srfs := srfs s; y_bases := set_nth (y_bases s) i v;
                existing_layers := existing_layers s;
                drawn := drawn s; created := created s;
                layer_table := layer_table s; trace := trace s |})
  else Raise IndexError.

(** [max(y_bases)]; the maximum of an empty list raises [ValueError]. *)
Definition max_of (l : list Z) : option Z :=
  match l with
  | [] => None
  | y :: rest => Some (fold_left Z.max rest y)
  end.

Definition max_y_bases : M Z := fun s =>
  match max_of (y_bases s) with
  | Some m => Ret (m, s)
  | None => Raise ValueError
  end.

Definition lookup_height (bh : list (Z * Z)) (bucket_index : Z) : M Z :=
  match lookup bh bucket_index with
  | Some h => ret h
  | None => raise KeyError
  end.

(** The handle [rs.AddSrfPt] returns at its [n]-th call: the creation fails
    when the oracle [render] says so, and the call then returns [None]. *)
Definition handle (render : nat -> bool) (n : nat) : option nat :=
  if render n then Some n else None.

Section Oracles.

Variable rng : nat -> nat.
Variable render : nat -> bool.

(** *** The module [random] *)

Definition draw : M nat := fun s =>
  Ret (rng (drawn s),
       {| srfs := srfs s; y_bases := y_bases s;
          existing_layers := existing_layers s;
          drawn := S (drawn s); created := created s;
          layer_table := layer_table s; trace := trace s |}).

(** [random.randint(a, b)]: an integer of [a..b]; an empty range raises. *)
Definition randint (a b : Z) : M Z :=
  if b <? a then raise ValueError
  else n <- draw ;; ret (a + Z.of_nat n mod (b - a + 1)).

(** [random.choice(l)]: an element of [l]; an empty list raises. *)
Definition choice {A} (l : list A) : M A :=
  match l with
  | [] => raise IndexError
  | d :: _ => n <- draw ;; ret (nth (n mod List.length l)%nat l d)
  end.

(** *** The Rhino document *)

Definition log (e : event) : M unit := fun s =>
  Ret (tt, {| srfs := srfs s; y_bases := y_bases s;
              existing_layers := existing_layers s;
              drawn := drawn s; created := created s;
              layer_table := layer_table s; trace := trace s ++ [e] |}).

Definition rs_IsLayer (layer_name : string) : M bool := fun s =>
  Ret (mem layer_name (layer_table s), s).

Definition rs_AddLayer (layer_name : string) : M unit := fun s =>
  Ret (tt, {| srfs := srfs s; y_bases := y_bases s;
              existing_layers := existing_layers s;
              drawn := drawn s; created := created s;
              layer_table := layer_table s ++ [layer_name];
              trace := trace s ++ [AddLayer layer_name] |}).

Definition rs_LayerColor (layer_name : string) (r g b : Z) : M unit :=
  log (LayerColor layer_name r g b).

(** The rectangle of column [i] between [y0] and [y1]: its corners are
    [(i - 0.5, y1)], [(i - 0.5, y0)], [(i + 0.5, y0)], [(i + 0.5, y1)].  The
    call returns a fresh handle, or nothing when the creation fails. *)
Definition rs_AddSrfPt (at_site : site) (i : nat) (y0 y1 : Z) : M (option nat) := fun s =>
  let srf := handle render (created s) in
  Ret (srf, {| srfs := srfs s; y_bases := y_bases s;
               existing_layers := existing_layers s;
               drawn := drawn s; created := S (created s);
               layer_table := layer_table s;
               trace := trace s ++ [AddSrfPt at_site i y0 y1 srf] |}).

Definition rs_ObjectLayer (srf : nat) (layer_name : string) : M unit :=
  log (ObjectLayer srf layer_name).

(** ** Step 1: generate regular tiles *)

(** The body of the two nested loops, for column [i]. *)
Definition stack_cell (nb : Z) (bh : list (Z * Z)) (i : nat) : M unit :=
  bucket_index <- randint 1 nb ;;
  r <- lookup_height bh bucket_index ;;
  let layer_name := layer_of bucket_index in
  known <- rs_IsLayer layer_name ;;
  (if negb known then
     rs_AddLayer layer_name ;;
     r_color <- randint 0 255 ;;
     g_color <- randint 0 255 ;;
     b_color <- randint 0 255 ;;
     rs_LayerColor layer_name r_color g_color b_color ;;
     register layer_name
   else
     layers <- get_layers ;;
     if negb (mem layer_name layers) then register layer_name else ret tt) ;;
  y0 <- load_y i ;;
  let y1 := y0 + r in
  srf <- rs_AddSrfPt (Stacked bucket_index) i y0 y1 ;;
  match srf with
  | Some g => rs_ObjectLayer g layer_name
  | None => ret tt
  end ;;
  store_y i y1 ;;
  append_srf srf.

Definition stacker (nb : Z) (bh : list (Z * Z)) (xNum yNum : Z) : M unit :=
  for_each (range yNum) (fun _ =>
    for_each (range xNum) (fun i => stack_cell nb bh i)).

(** ** Step 2: fill the top gap per column *)

(** [[(index, h) for index, h in bucket_heights.items() if h <= gap + 1e-6]] *)
Definition valid_fits (bh : list (Z * Z)) (gap : Z) : list (Z * Z) :=
  filter (fun '(_, h) => h <=? gap + eq_eps) bh.

(** How one pass through the body of the [while] loop ends, with the values
    of [current_y] and [gap] at that point. *)
Inductive flow : Set :=
| Continue (current_y gap : Z)
| Break (current_y gap : Z).

Definition close_step (bh : list (Z * Z)) (i : nat) (max_height current_y gap : Z) : M flow :=
  match valid_fits bh gap with
  | _ :: _ =>
      '(bucket_index, h) <- choice (valid_fits bh gap) ;;
      let is_last_tile := Z.abs (gap - h) <? eq_eps in
      let y0 := current_y in
      let y1 := y0 + h in
      srf <- rs_AddSrfPt (Fitted bucket_index) i y0 y1 ;;
      match srf with
      | Some g =>
          layer_name <- (if is_last_tile
                         then layers <- get_layers ;; choice layers
                         else ret (layer_of bucket_index)) ;;
          rs_ObjectLayer g layer_name ;;
          append_srf (Some g)
      | None => ret tt
      end ;;
      ret (Continue y1 (max_height - y1))
  | [] =>
      let h := gap in
      let y0 := current_y in
      let y1 := y0 + h in
      layers <- get_layers ;;
      layer_name <- choice layers ;;
      srf <- rs_AddSrfPt Fallback i y0 y1 ;;
      match srf with
      | Some g => rs_ObjectLayer g layer_name ;; append_srf (Some g)
      | None => ret tt
      end ;;
      ret (Break current_y gap)
  end.

(** [while gap > 0.001: ...], returning the final [current_y] and [gap].
    One unit of fuel is spent per pass through the body. *)
Fixpoint while_gap (fuel : nat) (bh : list (Z * Z)) (i : nat)
    (max_height current_y gap : Z) : M (Z * Z) :=
  if guard_eps <? gap then
    match fuel with
    | O => fun _ => OutOfFuel
    | S fuel' =>
        f <- close_step bh i max_height current_y gap ;;
        match f with
        | Continue current_y' gap' => while_gap fuel' bh i max_height current_y' gap'
        | Break current_y' gap' => ret (current_y', gap')
        end
    end
  else ret (current_y, gap).

(** [if gap >= 0.001: ...] after the loop. *)
Definition residual_guard (i : nat) (current_y gap : Z) : M unit :=
  if guard_eps <=? gap then
    let y0 := current_y in
    let y1 := y0 + gap in
    layers <- get_layers ;;
    filler_layer <- choice layers ;;
    srf <- rs_AddSrfPt Residual i y0 y1 ;;
    match srf with
    | Some g => rs_ObjectLayer g filler_layer ;; append_srf (Some g)
    | None => ret tt
    end
  else ret tt.

(** The body of [for i in range(xNum)].  It returns the values of the locals
    [current_y] and [gap] when the iteration ends; the script drops them.
    The difference [max_height - current_y] is the exact one: it is the
    float difference of the script on the grid of the script's constants,
    where a gap is 0 or at least 0.5; off the grid a float gap may differ
    from it in the last places, which matters only to a gap within such a
    rounding error of 0.001. *)
Definition close_column (fuel : nat) (bh : list (Z * Z)) (max_height : Z) (i : nat) : M (Z * Z) :=
  current_y <- load_y i ;;
  let gap := max_height - current_y in
  '(current_y', gap') <- while_gap fuel bh i max_height current_y gap ;;
  residual_guard i current_y' gap' ;;
  ret (current_y', gap').

Definition gap_closer (fuel : nat) (bh : list (Z * Z)) (xNum : Z) : M (Z * list (Z * Z)) :=
  max_height <- max_y_bases ;;
  finals <- for_collect (range xNum) (close_column fuel bh max_height) ;;
  ret (max_height, finals).

(** ** The whole function *)

(** [pavPattern(xNum, yNum)] with the catalog constants [c].  The result
    carries [max_height] and, per column, the final [current_y] and [gap];
    the final state holds [srfs]. *)
Definition pavPattern_with (c : config) (fuel : nat) (xNum yNum : Z) : M (Z * list (Z * Z)) :=
  init_locals xNum ;;
  match num_buckets c with
  | None => raise ZeroDivisionError
  | Some nb =>
      let bh := bucket_heights c nb in
      stacker nb bh xNum yNum ;;
      gap_closer fuel bh xNum
  end.

(** What the script returns: [srfs]. *)
Definition pavPattern (fuel : nat) (xNum yNum : Z) (layers : list string) : outcome (list (option nat)) :=
  match pavPattern_with shipped fuel xNum yNum (boot layers) with
  | Ret (_, s) => Ret (srfs s)
  | Raise e => Raise e
  | OutOfFuel => OutOfFuel
  end.

End Oracles.

(** ** Readings of the trace *)

(** A surface request, as the trace records it. *)
Record panel : Set := Panel {
  p_site : site;
  p_col : nat;
  p_y0 : Z;
  p_y1 : Z;
  p_srf : option nat
}.

Definition panel_of (e : event) : list panel :=
  match e with
  | AddSrfPt k i y0 y1 srf => [Panel k i y0 y1 srf]
  | _ => []
  end.

Definition tag_of (e : event) : list (nat * string) :=
  match e with
  | ObjectLayer srf layer_name => [(srf, layer_name)]
  | _ => []
  end.

(** The surfaces requested and the layers assigned, in order. *)
Definition panels (t : list event) : list panel := flat_map panel_of t.
Definition tags (t : list event) : list (nat * string) := flat_map tag_of t.

Definition height (p : panel) : Z := p_y1 p - p_y0 p.

Definition is_filler (p : panel) : bool :=
  match p_site p with
  | Fallback | Residual => true
  | _ => false
  end.

(** What a surface request leaves in [srfs]: the stacking loop appends the
    handle whatever it is, the gap loop appends it when there is one. *)
Definition recorded (p : panel) : list (option nat) :=
  match p_site p, p_srf p with
  | Stacked _, srf => [srf]
  | _, Some g => [Some g]
  | _, None => []
  end.

(** The panels of column [i]. *)
Definition column (i : nat) (ps : list panel) : list panel :=
  filter (fun p => (p_col p =? i)%nat) ps.

(** The panels [ps] sit one on top of the other, the first one on [y]. *)
Fixpoint chain (y : Z) (ps : list panel) : Prop :=
  match ps with
  | [] => True
  | p :: rest => p_y0 p = y /\ chain (p_y1 p) rest
  end.

(** The top of the pile [ps] standing on [y]. *)
Definition top (y : Z) (ps : list panel) : Z :=
  fold_left (fun _ p => p_y1 p) ps y.

(** ** Oracles for examples *)

(** The oracle that reads a finite tape, then zeros. *)
Definition tape (l : list nat) : nat -> nat := fun n => nth n l 0%nat.

Definition always (b : bool) : nat -> bool := fun _ => b.

(** Catalog constants that are sound: a positive step, and a largest size
    not below the base size. *)
Definition valid (c : config) : Prop := 0 < bucket_size c /\ base c <= max_r c.

(** The frame of the gap-closing phase: from [s] to [s'] the script has
    requested the surfaces [new] and has left [y_bases], the registry
    [existing_layers] and the layer table as they were. *)
Record closes (s s' : state) (new : list panel) : Prop := Closes {
  cl_y_bases : y_bases s' = y_bases s;
  cl_layers : existing_layers s' = existing_layers s;
  cl_table : layer_table s' = layer_table s;
  cl_created : created s' = (created s + List.length new)%nat;
  cl_panels : panels (trace s') = panels (trace s) ++ new;
  cl_srfs : srfs s' = srfs s ++ flat_map recorded new
}.

(** A surface requested by the gap loop for column [i] with the catalog
    [bh]: a catalog size, or a fallback filler smaller than every catalog
    size. *)
Definition gap_panel (bh : list (Z * Z)) (i : nat) (p : panel) : Prop :=
  p_col p = i /\
  match p_site p with
  | Fitted b => In (b, height p) bh
  | Fallback | Residual => forall b h, In (b, h) bh -> height p < h
  | Stacked _ => False
  end.

(** The gap [gap] is aligned with the catalog [bh]: [hmin] is a catalog
    size, every catalog size is a multiple of it, and so is the gap. *)
Definition aligned (bh : list (Z * Z)) (hmin gap : Z) : Prop :=
  (exists b, In (b, hmin) bh) /\
  (forall b h, In (b, h) bh -> (hmin | h)) /\
  (hmin | gap) /\ 0 <= gap.

(** What holds of the state all along the stacking phase, for [n] columns
    and the catalog [bh] of [nb] buckets: every surface requested so far is
    a catalog panel of some column, its layer is registered, the registry
    has no duplicate and holds layers of the document only, [srfs] holds
    what the requests left, and in each column the panels sit one on top of
    the other from 0 up to the column's entry of [y_bases]. *)
Record stacked (nb : Z) (bh : list (Z * Z)) (n : nat) (s : state) : Prop := StackedInv {
  st_len : List.length (y_bases s) = n;
  st_incl : incl (existing_layers s) (layer_table s);
  st_nodup : NoDup (existing_layers s);
  st_srfs : srfs s = flat_map recorded (panels (trace s));
  st_created : created s = List.length (panels (trace s));
  st_panels :
    Forall (fun p => (p_col p < n)%nat /\
                     exists b, p_site p = Stacked b /\ 1 <= b <= nb /\
                               lookup bh b = Some (height p) /\
                               In (layer_of b) (existing_layers s))
           (panels (trace s));
  st_registry :
    forall name, In name (existing_layers s) ->
      exists p b, In p (panels (trace s)) /\ p_site p = Stacked b /\ name = layer_of b;
  st_piles :
    forall i, (i < n)%nat ->
      chain 0 (column i (panels (trace s))) /\
      nth i (y_bases s) 0 = top 0 (column i (panels (trace s)))
}.

(** ** States and constants for examples *)

(** The gap-closing phase entered with one column at 2.7 and one at 3.0,
    and one registered layer. *)
Definition stalled : state :=
  {| srfs := []; y_bases := [2700000; 3000000];
     existing_layers := ["Height_Group_1"%string];
     drawn := 0%nat; created := 0%nat;
     layer_table := ["Height_Group_1"%string]; trace := [] |}.

(** The constants of the script with [bucket_size] changed to 0.3. *)
Definition step_03 : config :=
  {| base := 500000; bucket_size := 300000; max_r := 3000000 |}.

(** Draws for two columns and one row: bucket 1 for column 0 and bucket 6
    for column 1 (each followed by the three colour draws of a new layer),
    then the third of the five sizes that fit the gap of 2.5. *)
Definition draws_1_6_3 : nat -> nat := tape [0; 0; 0; 0; 5; 0; 0; 0; 2]%nat.

(** Draws for two columns and one row: bucket 1, then bucket 2. *)
Definition draws_1_2 : nat -> nat := tape [0; 0; 0; 0; 1]%nat.

(** The renderer that fails at its third call only. *)
Definition third_fails : nat -> bool := fun n => negb (n =? 2)%nat.


(** ** Further readings of the trace *)

(** The calls that change the layers of the document. *)
Definition layer_call (e : event) : list event :=
  match e with
  | AddLayer _ | LayerColor _ _ _ _ => [e]
  | _ => []
  end.

Definition layer_calls (t : list event) : list event := flat_map layer_call t.

(** The calls [calls] add the layers [added], in that order, and give each
    one a colour right after adding it, with components in 0..255. *)
Fixpoint coloured (added : list string) (calls : list event) : Prop :=
  match added, calls with
  | [], [] => True
  | name :: added', AddLayer n1 :: LayerColor n2 r g b :: calls' =>
      n1 = name /\ n2 = name /\
      0 <= r <= 255 /\ 0 <= g <= 255 /\ 0 <= b <= 255 /\
      coloured added' calls'
  | _, _ => False
  end.

(** The handles of the surfaces that were created, in the order of the
    requests. *)
Definition created_handle (p : panel) : list nat :=
  match p_srf p with
  | Some g => [g]
  | None => []
  end.

Definition handles (ps : list panel) : list nat := flat_map created_handle ps.

(** The requests that gave a surface. *)
Definition is_created (p : panel) : bool :=
  match p_srf p with
  | Some _ => true
  | None => false
  end.

Definition created_panels (ps : list panel) : list panel := filter is_created ps.

(** The layer a created surface may be assigned to, given the registry: its
    bucket's layer for a stacked panel, its bucket's layer or a registered
    one for a catalog fit, a registered one for a filler. *)
Definition tag_ok (registry : list string) (p : panel) (layer_name : string) : Prop :=
  match p_site p with
  | Stacked b => layer_name = layer_of b
  | Fitted b => layer_name = layer_of b \/ In layer_name registry
  | Fallback | Residual => In layer_name registry
  end.

(** The layers of the buckets drawn while stacking, one per stacked panel,
    and a list without its repetitions, first occurrences kept. *)
Definition drawn_layer (p : panel) : list string :=
  match p_site p with
  | Stacked b => [layer_of b]
  | _ => []
  end.

Definition drawn_layers (ps : list panel) : list string := flat_map drawn_layer ps.

Definition first_seen (l : list string) : list string :=
  fold_left (fun seen x => if mem x seen then seen else seen ++ [x]) l [].

(** The bucket indices the stacking loop draws for its first [cells] cells,
    read off the oracle [rng] from the cursor [cursor] on, in a document
    whose layer table is [table].  A cell draws its bucket index with
    [random.randint(1, num_buckets)]; when the layer of that bucket is not
    in the document, the cell adds it and spends three more draws on its
    colour before the next cell draws. *)
Fixpoint stacked_buckets (rng : nat -> nat) (nb : Z) (table : list string)
    (cursor cells : nat) : list Z :=
  match cells with
  | O => []
  | S cells' =>
      let bucket_index := 1 + Z.of_nat (rng cursor) mod (nb - 1 + 1) in
      let layer_name := layer_of bucket_index in
      bucket_index ::
      (if mem layer_name table
       then stacked_buckets rng nb table (1 + cursor) cells'
       else stacked_buckets rng nb (table ++ [layer_name]) (4 + cursor) cells')
  end.

(** What the script keeps true of its state from its first statement to its
    last, in a document whose layers were [layers]: the handles are the
    ranks of the requests, [srfs] holds what the requests left, the layer
    assignments go one by one with the created surfaces, the registry is made
    of document
    layers and lists the drawn layers in first-seen order, and the document
    has gained layers of buckets only, none of them twice, each coloured
    once. *)
Record kept (render : nat -> bool) (layers : list string) (nb : Z) (s : state) : Prop := Kept {
  k_created : created s = List.length (panels (trace s));
  k_handles :
    map p_srf (panels (trace s)) =
    map (handle render) (seq 0 (List.length (panels (trace s))));
  k_srfs : srfs s = flat_map recorded (panels (trace s));
  k_tags :
    Forall2 (fun p t => p_srf p = Some (fst t) /\
                        tag_ok (existing_layers s) p (snd t))
            (created_panels (panels (trace s))) (tags (trace s));
  k_incl : incl (existing_layers s) (layer_table s);
  k_first : existing_layers s = first_seen (drawn_layers (panels (trace s)));
  k_table :
    exists added,
      layer_table s = layers ++ added /\
      NoDup added /\
      (forall n, In n added ->
         ~ In n layers /\ exists b, 1 <= b <= nb /\ n = layer_of b) /\
      coloured added (layer_calls (trace s))
}.

(** A panel within the layout whose top is [M]: it starts at 0 or above, it
    has a positive height, it ends at most 1e-6 above [M], and on [M] when it
    is a filler. *)
Definition within (M : Z) (p : panel) : Prop :=
  0 <= p_y0 p < p_y1 p /\
  p_y1 p <= M + eq_eps /\
  (is_filler p = true -> p_y1 p = M).

(** While stacking: no column is below 0, and every panel requested so far
    is a catalog panel of positive height that starts at 0 or above and ends
    no higher than its column stands. *)
Definition piled (s : state) : Prop :=
  Forall (fun y => 0 <= y) (y_bases s) /\
  Forall (fun p => 0 <= p_y0 p < p_y1 p /\ is_filler p = false /\
                   exists y, nth_error (y_bases s) (p_col p) = Some y /\ p_y1 p <= y)
         (panels (trace s)).

(** While closing the gaps under the top [M]: every panel requested so far
    is within the layout. *)
Definition laid (M : Z) (s : state) : Prop :=
  Forall (fun y => 0 <= y) (y_bases s) /\
  Forall (within M) (panels (trace s)).

(** * The size catalog *)

Section Catalog.

Variable c : config.


Lemma bucket_heights_length (nb : Z) :
  List.length (bucket_heights c nb) = Z.to_nat nb.
Proof. unfold bucket_heights, range. now rewrite length_map, length_seq. Qed.

Lemma bucket_heights_In (nb index h : Z) :
  In (index, h) (bucket_heights c nb) <->
  1 <= index <= nb /\ h = base c + (index - 1) * bucket_size c.
Proof.
  unfold bucket_heights, range. rewrite in_map_iff. split.
  - intros (i & E & Hi). apply in_seq in Hi. inversion E; subst. split; [lia|].
    f_equal. f_equal. lia.
  - intros (Hr & ->). exists (Z.to_nat (index - 1)). split.
    + f_equal; [lia|]. f_equal. f_equal. lia.
    + apply in_seq. lia.
Qed.

Lemma lookup_entries (a n : nat) (index : Z) :
  Z.of_nat a + 1 <= index <= Z.of_nat a + Z.of_nat n ->
  lookup (map (fun i => (Z.of_nat i + 1, base c + Z.of_nat i * bucket_size c)) (seq a n))
    index = Some (base c + (index - 1) * bucket_size c).
Proof.
  revert a. induction n as [|n IH]; intros a Hr; [lia|].
  cbn [seq map lookup].
  destruct (Z.eqb_spec (Z.of_nat a + 1) index) as [E|NE].
  - do 3 f_equal. lia.
  - apply IH. lia.
Qed.

Lemma lookup_bucket (nb index : Z) :
  1 <= index <= nb ->
  lookup (bucket_heights c nb) index = Some (base c + (index - 1) * bucket_size c).
Proof.
  intros Hr. unfold bucket_heights, range. apply lookup_entries. lia.
Qed.

Lemma lookup_In (bh : list (Z * Z)) (index h : Z) :
  lookup bh index = Some h -> In (index, h) bh.
Proof.
  induction bh as [|[i' h'] rest IH]; cbn; [discriminate|].
  destruct (Z.eqb_spec i' index) as [->|_].
  - intros [= ->]. now left.
  - intros E. right. auto.
Qed.


Lemma num_buckets_valid :
  valid c -> num_buckets c = Some ((max_r c - base c) / bucket_size c + 1).
Proof.
  intros [Hs Hm]. unfold num_buckets.
  destruct (Z.eqb_spec (bucket_size c) 0) as [E|_]; [lia|].
  now rewrite Z.quot_div_nonneg by lia.
Qed.

Lemma num_buckets_pos (nb : Z) :
  valid c -> num_buckets c = Some nb -> 1 <= nb.
Proof.
  intros Hv E. rewrite (num_buckets_valid Hv) in E. injection E as <-.
  destruct Hv as [Hs Hm].
  assert (0 <= (max_r c - base c) / bucket_size c) by (apply Z.div_pos; lia). lia.
Qed.

Lemma bucket_bounds (nb index h : Z) :
  valid c -> num_buckets c = Some nb -> In (index, h) (bucket_heights c nb) ->
  base c <= h <= max_r c.
Proof.
  intros Hv E Hin. apply bucket_heights_In in Hin. destruct Hin as [Hr ->].
  rewrite (num_buckets_valid Hv) in E. injection E as <-.
  destruct Hv as [Hs Hm]. split; [nia|].
  assert (bucket_size c * ((max_r c - base c) / bucket_size c) <= max_r c - base c)
    by (apply Z.mul_div_le; lia).
  nia.
Qed.

End Catalog.


(** * Running the script *)

(** These stay folded while a run is stepped through. *)
#[local] Arguments mem : simpl never.
#[local] Arguments layer_of : simpl never.
#[local] Arguments handle : simpl never.
#[local] Arguments Z.add : simpl never.
#[local] Arguments Z.sub : simpl never.
#[local] Arguments Z.modulo : simpl never.
#[local] Arguments Z.ltb : simpl never.
#[local] Arguments Z.leb : simpl never.
#[local] Arguments Nat.modulo : simpl never.
#[local] Arguments Nat.ltb : simpl never.
#[local] Arguments Z.abs : simpl never.

Lemma panels_app (a b : list event) : panels (a ++ b) = panels a ++ panels b.
Proof. apply flat_map_app. Qed.

Lemma tags_app (a b : list event) : tags (a ++ b) = tags a ++ tags b.
Proof. apply flat_map_app. Qed.

Lemma mem_In (x : string) (l : list string) : mem x l = true <-> In x l.
Proof.
  unfold mem. rewrite existsb_exists. split.
  - intros (y & Hy & E). apply String.eqb_eq in E. now subst.
  - intros H. exists x. split; [assumption | apply String.eqb_refl].
Qed.

(** [run] steps through a sequence of script operations; [done_fields]
    closes the description of the state reached. *)
Ltac run :=
  repeat first
    [ progress unfold bind at 1
    | progress unfold store_y, load_y, lookup_height
    | progress cbn ].

Ltac done_fields :=
  eexists; repeat split; try reflexivity; cbn;
  rewrite ?panels_app, ?tags_app; cbn; rewrite ?app_nil_r, <- ?app_assoc;
  try reflexivity; try assumption.

Section Run.

Variable rng : nat -> nat.
Variable render : nat -> bool.

Lemma stack_cell_effect nb bh i s y0 :
  1 <= nb ->
  (forall b, 1 <= b <= nb -> lookup bh b <> None) ->
  nth_error (y_bases s) i = Some y0 ->
  incl (existing_layers s) (layer_table s) ->
  let b := 1 + Z.of_nat (rng (drawn s)) mod nb in
  let name := layer_of b in
  let srf := handle render (created s) in
  exists r s',
    lookup bh b = Some r /\
    stack_cell rng render nb bh i s = Ret (tt, s') /\
    y_bases s' = set_nth (y_bases s) i (y0 + r) /\
    existing_layers s' =
      (if mem name (existing_layers s) then existing_layers s
       else existing_layers s ++ [name]) /\
    incl (existing_layers s') (layer_table s') /\
    srfs s' = srfs s ++ [srf] /\
    created s' = S (created s) /\
    panels (trace s') = panels (trace s) ++ [Panel (Stacked b) i y0 (y0 + r) srf] /\
    tags (trace s') = tags (trace s) ++ match srf with Some g => [(g, name)] | None => [] end.
Proof.
  intros Hnb Hbh Hy Hincl b name srf.
  assert (Hb : 1 <= b <= nb).
  { subst b. pose proof (Z.mod_pos_bound (Z.of_nat (rng (drawn s))) nb). lia. }
  destruct (lookup bh b) as [r|] eqn:El; [|now apply Hbh in Hb].
  exists r.
  assert (Hi : (i <? List.length (y_bases s))%nat = true).
  { apply Nat.ltb_lt. apply nth_error_Some. congruence. }
  unfold stack_cell, randint.
  destruct (Z.ltb_spec nb 1) as [?|_]; [lia|].
  unfold bind at 1. unfold bind at 1. cbn [draw ret].
  replace (1 + Z.of_nat (rng (drawn s)) mod (nb - 1 + 1)) with b
    by (subst b; do 2 f_equal; lia).
  fold name.
  clearbody b name.
  run. rewrite El. run.
  destruct (mem name (layer_table s)) eqn:Ek; run.
  - destruct (mem name (existing_layers s)) eqn:Em; run; rewrite Hy; run; fold srf;
      destruct srf as [g|]; run; rewrite Hi; run; done_fields.
    all: apply incl_app; [assumption|]; intros x [<-|[]]; now apply mem_In.
  - assert (Em : mem name (existing_layers s) = false).
    { destruct (mem name (existing_layers s)) eqn:Em; [|reflexivity].
      apply mem_In, Hincl, mem_In in Em. congruence. }
    rewrite Em. unfold randint. change (255 <? 0) with false.
    run. rewrite Hy; run; fold srf.
    destruct srf as [g|]; run; rewrite Hi; run; done_fields.
    all: apply incl_app; [now apply incl_appl | apply incl_appr, incl_refl].
Qed.

(** *** One pass through the gap loop *)

Lemma closes_refl s : closes s s [].
Proof.
  constructor; cbn; rewrite ?app_nil_r; auto.
Qed.

Lemma closes_trans s1 s2 s3 n1 n2 :
  closes s1 s2 n1 -> closes s2 s3 n2 -> closes s1 s3 (n1 ++ n2).
Proof.
  intros [A1 A2 A3 A4 A5 A6] [B1 B2 B3 B4 B5 B6]. constructor; try congruence.
  - rewrite B4, A4, length_app. lia.
  - rewrite B5, A5. now rewrite app_assoc.
  - rewrite B6, A6, flat_map_app. now rewrite app_assoc.
Qed.

Lemma pick_nth_error {A} (l : list A) (d : A) (n : nat) :
  l <> [] -> nth_error l (n mod List.length l) = Some (nth (n mod List.length l) l d).
Proof.
  intros Hl. apply nth_error_nth'. apply Nat.mod_upper_bound.
  destruct l; [congruence | discriminate].
Qed.

Lemma close_step_fit bh i max_height current_y gap s :
  valid_fits bh gap <> [] ->
  existing_layers s <> [] ->
  let srf := handle render (created s) in
  exists b h random_layer s',
    nth_error (valid_fits bh gap)
      (rng (drawn s) mod List.length (valid_fits bh gap)) = Some (b, h) /\
    nth_error (existing_layers s)
      (rng (S (drawn s)) mod List.length (existing_layers s)) = Some random_layer /\
    close_step rng render bh i max_height current_y gap s =
      Ret (Continue (current_y + h) (max_height - (current_y + h)), s') /\
    closes s s' [Panel (Fitted b) i current_y (current_y + h) srf] /\
    tags (trace s') = tags (trace s) ++
      match srf with
      | Some g => [(g, if Z.abs (gap - h) <? eq_eps then random_layer else layer_of b)]
      | None => []
      end.
Proof.
  intros Hf Hl srf. unfold close_step.
  destruct (valid_fits bh gap) as [|d rest] eqn:Ef; [congruence|].
  destruct (existing_layers s) as [|l0 ls] eqn:El; [congruence|].
  pose proof (pick_nth_error (d :: rest) d (rng (drawn s)) Hf) as Hp.
  pose proof (pick_nth_error (l0 :: ls) l0 (rng (S (drawn s))) Hl) as Hq.
  destruct (nth (rng (drawn s) mod List.length (d :: rest)) (d :: rest) d)
    as [b h] eqn:Epick.
  exists b, h, (nth (rng (S (drawn s)) mod List.length (l0 :: ls)) (l0 :: ls) l0).
  unfold choice at 1. run. cbn in Epick. rewrite Epick. run. fold srf.
  destruct srf as [g|]; run.
  - destruct (Z.abs (gap - h) <? eq_eps); run; rewrite ?El; run;
      (eexists; split; [exact Hp|]; split; [exact Hq|]; split; [reflexivity|]);
      (split; [constructor; cbn; rewrite ?panels_app; cbn;
                rewrite ?app_nil_r; auto; lia
              | cbn; rewrite ?tags_app; cbn; rewrite ?app_nil_r, <- ?app_assoc; reflexivity]).
  - eexists; split; [exact Hp|]; split; [exact Hq|]; split; [reflexivity|].
    split; [constructor; cbn; rewrite ?panels_app; cbn; rewrite ?app_nil_r; auto; lia
           | cbn; rewrite ?tags_app; cbn; rewrite ?app_nil_r; reflexivity].
Qed.

Lemma close_step_fallback bh i max_height current_y gap s :
  valid_fits bh gap = [] ->
  existing_layers s <> [] ->
  let srf := handle render (created s) in
  exists random_layer s',
    nth_error (existing_layers s)
      (rng (drawn s) mod List.length (existing_layers s)) = Some random_layer /\
    close_step rng render bh i max_height current_y gap s =
      Ret (Break current_y gap, s') /\
    closes s s' [Panel Fallback i current_y (current_y + gap) srf] /\
    tags (trace s') = tags (trace s) ++
      match srf with Some g => [(g, random_layer)] | None => [] end.
Proof.
  intros Hf Hl srf. unfold close_step. rewrite Hf.
  destruct (existing_layers s) as [|l0 ls] eqn:El; [congruence|].
  pose proof (pick_nth_error (l0 :: ls) l0 (rng (drawn s)) Hl) as Hq.
  exists (nth (rng (drawn s) mod List.length (l0 :: ls)) (l0 :: ls) l0).
  run. rewrite El. run. fold srf.
  destruct srf as [g|]; run;
    (eexists; split; [exact Hq|]; split; [reflexivity|]);
    (split; [constructor; cbn; rewrite ?panels_app; cbn; rewrite ?app_nil_r; auto; lia
            | cbn; rewrite ?tags_app; cbn; rewrite ?app_nil_r, <- ?app_assoc; reflexivity]).
Qed.

Lemma residual_guard_fires i current_y gap s :
  guard_eps <= gap ->
  existing_layers s <> [] ->
  let srf := handle render (created s) in
  exists random_layer s',
    nth_error (existing_layers s)
      (rng (drawn s) mod List.length (existing_layers s)) = Some random_layer /\
    residual_guard rng render i current_y gap s = Ret (tt, s') /\
    closes s s' [Panel Residual i current_y (current_y + gap) srf] /\
    tags (trace s') = tags (trace s) ++
      match srf with Some g => [(g, random_layer)] | None => [] end.
Proof.
  intros Hg Hl srf. unfold residual_guard.
  destruct (Z.leb_spec guard_eps gap) as [_|?]; [|lia].
  destruct (existing_layers s) as [|l0 ls] eqn:El; [congruence|].
  pose proof (pick_nth_error (l0 :: ls) l0 (rng (drawn s)) Hl) as Hq.
  exists (nth (rng (drawn s) mod List.length (l0 :: ls)) (l0 :: ls) l0).
  run. rewrite El. run. fold srf.
  destruct srf as [g|]; run;
    (eexists; split; [exact Hq|]; split; [reflexivity|]);
    (split; [constructor; cbn; rewrite ?panels_app; cbn; rewrite ?app_nil_r; auto; lia
            | cbn; rewrite ?tags_app; cbn; rewrite ?app_nil_r, <- ?app_assoc; reflexivity]).
Qed.

Lemma residual_guard_idle i current_y gap s :
  gap < guard_eps ->
  residual_guard rng render i current_y gap s = Ret (tt, s).
Proof.
  intros Hg. unfold residual_guard.
  destruct (Z.leb_spec guard_eps gap) as [?|_]; [lia | reflexivity].
Qed.


(** *** The gap loop of one column *)

Lemma valid_fits_In bh gap b h :
  In (b, h) (valid_fits bh gap) <-> In (b, h) bh /\ h <= gap + eq_eps.
Proof.
  unfold valid_fits. rewrite filter_In. cbn. now rewrite Z.leb_le.
Qed.

Lemma valid_fits_none bh gap :
  valid_fits bh gap = [] -> forall b h, In (b, h) bh -> gap + eq_eps < h.
Proof.
  intros E b h Hin. destruct (Z.le_gt_cases h (gap + eq_eps)) as [Hle|Hgt]; [|lia].
  assert (Hf : In (b, h) (valid_fits bh gap)) by now apply valid_fits_In.
  rewrite E in Hf. destruct Hf.
Qed.

Section Column.

Variable bh : list (Z * Z).
Variable i : nat.
Variable max_height hmin : Z.
Hypothesis Hmin : forall b h, In (b, h) bh -> hmin <= h.
Hypothesis Heps : guard_eps < hmin.

Lemma aligned_small gap : aligned bh hmin gap -> gap <= guard_eps -> gap = 0.
Proof.
  intros (_ & _ & [k Hk] & H0) Hg. unfold guard_eps in *.
  assert (Hc : k <= 0 \/ 1 <= k) by lia. destruct Hc; nia.
Qed.

Lemma aligned_fits gap :
  aligned bh hmin gap -> guard_eps < gap -> valid_fits bh gap <> [].
Proof.
  intros ([b Hb] & _ & [k Hk] & H0) Hg E.
  pose proof (valid_fits_none _ _ E _ _ Hb) as Hlt.
  unfold guard_eps, eq_eps in *.
  assert (Hc : k <= 0 \/ 1 <= k) by lia. destruct Hc; nia.
Qed.

Lemma aligned_step gap b h :
  aligned bh hmin gap -> In (b, h) (valid_fits bh gap) -> aligned bh hmin (gap - h).
Proof.
  intros (Hb & Hd & Hg & H0) Hin. apply valid_fits_In in Hin. destruct Hin as [Hin Hle].
  repeat split; try assumption.
  - apply Z.divide_sub_r; [assumption | now apply (Hd b)].
  - destruct Hg as [k Hk]. destruct (Hd _ _ Hin) as [k' Hk'].
    unfold guard_eps, eq_eps in *.
    assert (Hc : k - k' <= -1 \/ 0 <= k - k') by lia. destruct Hc; nia.
Qed.

Lemma while_gap_idle (fuel : nat) current_y gap s :
  gap <= guard_eps ->
  while_gap rng render fuel bh i max_height current_y gap s = Ret ((current_y, gap), s).
Proof.
  intros Hg. destruct fuel; cbn [while_gap];
    destruct (Z.ltb_spec guard_eps gap); try lia; reflexivity.
Qed.

Lemma while_gap_effect (fuel : nat) : forall current_y gap s,
  existing_layers s <> [] \/ gap <= guard_eps ->
  gap = max_height - current_y ->
  gap <= hmin * Z.of_nat fuel + guard_eps ->
  exists y g s' new,
    while_gap rng render fuel bh i max_height current_y gap s = Ret ((y, g), s') /\
    closes s s' new /\
    g = max_height - y /\
    Forall (gap_panel bh i) new /\
    (g <= guard_eps \/ valid_fits bh g = []) /\
    (List.length new <= fuel)%nat /\
    (aligned bh hmin gap ->
       g = 0 /\ Forall (fun p => is_filler p = false) new /\
       chain current_y new /\ top current_y new = y).
Proof.
  induction fuel as [|fuel IH]; intros current_y gap s Hreg Hgap Hfuel.
  - assert (Hg : gap <= guard_eps) by lia.
    exists current_y, gap, s, []. cbn [while_gap].
    destruct (Z.ltb_spec guard_eps gap) as [?|_]; [lia|].
    split; [reflexivity|]. split; [apply closes_refl|]. split; [assumption|].
    split; [constructor|]. split; [now left|]. split; [cbn; lia|].
    intros Ha. split; [now apply aligned_small|]. split; [constructor|].
    split; [exact I | reflexivity].
  - cbn [while_gap]. destruct (Z.ltb_spec guard_eps gap) as [Hg|Hg].
    2:{ exists current_y, gap, s, [].
        split; [reflexivity|]. split; [apply closes_refl|]. split; [assumption|].
        split; [constructor|]. split; [now left|]. split; [cbn; lia|].
        intros Ha. split; [now apply aligned_small|]. split; [constructor|].
        split; [exact I | reflexivity]. }
    destruct Hreg as [Hreg|?]; [|lia].
    destruct (valid_fits bh gap) as [|d rest] eqn:Ef.
    + destruct (close_step_fallback bh i max_height current_y gap s Ef Hreg)
        as (layer & s' & _ & Hrun & Hcl & _).
      exists current_y, gap, s', [Panel Fallback i current_y (current_y + gap)
                                    (handle render (created s))].
      unfold bind. rewrite Hrun. cbn.
      split; [reflexivity|]. split; [assumption|]. split; [assumption|].
      split; [|split; [now right|]; split; [cbn; lia|]].
      * constructor; [|constructor]. split; [reflexivity|]. cbn. intros b h Hin.
        pose proof (valid_fits_none _ _ Ef _ _ Hin). unfold height, eq_eps in *. cbn. lia.
      * intros Ha. now apply aligned_fits in Ha.
    + assert (Hne : valid_fits bh gap <> []) by (rewrite Ef; discriminate).
      destruct (close_step_fit bh i max_height current_y gap s Hne Hreg)
        as (b & h & layer & s' & Hpick & _ & Hrun & Hcl & _).
      apply nth_error_In in Hpick.
      pose proof Hpick as Hfit. apply valid_fits_In in Hfit. destruct Hfit as [Hin Hle].
      pose proof (Hmin _ _ Hin) as Hh.
      destruct (IH (current_y + h) (max_height - (current_y + h)) s')
        as (y & g & s'' & new & Hrun' & Hcl' & Hg' & Hall & Hexit & Hcount & Hexact).
      * left. now rewrite (cl_layers _ _ _ Hcl).
      * reflexivity.
      * unfold guard_eps, eq_eps in *. nia.
      * exists y, g, s''. eexists.
        unfold bind. rewrite Hrun. cbn. split; [exact Hrun'|].
        split; [exact (closes_trans _ _ _ _ _ Hcl Hcl')|].
        split; [assumption|]. split.
        { constructor; [|assumption]. split; [reflexivity|]. cbn. unfold height. cbn.
          now replace (current_y + h - current_y) with h by lia. }
        split; [assumption|]. split; [cbn; lia|].
        intros Ha.
        replace (max_height - (current_y + h)) with (gap - h) in Hexact by lia.
        destruct (Hexact (aligned_step _ _ _ Ha Hpick)) as (-> & Hnf & Hch & Htop).
        split; [reflexivity|]. split; [constructor; [reflexivity | assumption]|].
        split; [split; [reflexivity | exact Hch] | exact Htop].
Qed.


Lemma close_column_effect (fuel : nat) s y0 :
  nth_error (y_bases s) i = Some y0 ->
  existing_layers s <> [] \/ max_height - y0 < guard_eps ->
  max_height - y0 <= hmin * Z.of_nat fuel + guard_eps ->
  exists y g s' new,
    close_column rng render fuel bh max_height i s = Ret ((y, g), s') /\
    closes s s' new /\
    g = max_height - y /\
    Forall (gap_panel bh i) new /\
    (List.length new <= S fuel)%nat /\
    (aligned bh hmin (max_height - y0) ->
       y = max_height /\ Forall (fun p => is_filler p = false) new /\
       chain y0 new /\ top y0 new = max_height).
Proof.
  intros Hy Hreg Hfuel. unfold close_column, bind at 1, load_y. rewrite Hy.
  destruct (while_gap_effect fuel y0 (max_height - y0) s)
    as (y & g & s1 & new & Hrun & Hcl & Hg & Hall & Hexit & Hcount & Hexact);
    [destruct Hreg; [now left | right; lia] | reflexivity | assumption |].
  unfold bind at 1. rewrite Hrun. cbn.
  destruct (Z.le_gt_cases guard_eps g) as [Hge|Hlt].
  - assert (Hreg1 : existing_layers s1 <> []).
    { rewrite (cl_layers _ _ _ Hcl). destruct Hreg as [|Hsmall]; [assumption|].
      exfalso. rewrite while_gap_idle in Hrun by lia.
      injection Hrun as <- <- <-. lia. }
    destruct (residual_guard_fires i y g s1 Hge Hreg1) as (layer & s2 & _ & Hrun2 & Hcl2 & _).
    exists y, g, s2. eexists. unfold bind. rewrite Hrun2.
    split; [reflexivity|]. split; [exact (closes_trans _ _ _ _ _ Hcl Hcl2)|].
    split; [assumption|]. split; [|split; [rewrite length_app; cbn; lia|]].
    + apply Forall_app. split; [assumption|]. constructor; [|constructor].
      split; [reflexivity|]. cbn. unfold height. cbn. intros b h Hin.
      destruct Hexit as [Hsmall|Hnone].
      * pose proof (Hmin _ _ Hin). lia.
      * pose proof (valid_fits_none _ _ Hnone _ _ Hin). unfold eq_eps in *. lia.
    + intros Ha. destruct (Hexact Ha) as (-> & _). unfold guard_eps in Hge. lia.
  - exists y, g, s1, new. unfold bind. rewrite residual_guard_idle by assumption.
    split; [reflexivity|]. split; [assumption|]. split; [assumption|].
    split; [assumption|]. split; [lia|].
    intros Ha. destruct (Hexact Ha) as (E & Hnf & Hch & Htop).
    assert (y = max_height) as -> by lia. auto.
Qed.

End Column.

(** The fallback branch leaves [current_y] and [gap] as they were, so the
    guard after the loop fires on the same gap. *)
Lemma close_column_fallback (fuel : nat) bh max_height i s y0 :
  nth_error (y_bases s) i = Some y0 ->
  existing_layers s <> [] ->
  guard_eps < max_height - y0 ->
  valid_fits bh (max_height - y0) = [] ->
  exists s',
    close_column rng render (S fuel) bh max_height i s =
      Ret ((y0, max_height - y0), s') /\
    closes s s' [Panel Fallback i y0 max_height (handle render (created s));
                 Panel Residual i y0 max_height (handle render (S (created s)))].
Proof.
  intros Hy Hreg Hg Hf. unfold close_column, bind at 1, load_y. rewrite Hy.
  cbn [while_gap]. destruct (Z.ltb_spec guard_eps (max_height - y0)) as [_|?]; [|lia].
  destruct (close_step_fallback bh i max_height y0 (max_height - y0) s Hf Hreg)
    as (layer & s1 & _ & Hrun & Hcl & _).
  unfold bind at 1. unfold bind at 1. rewrite Hrun. cbn.
  assert (Hreg1 : existing_layers s1 <> []) by now rewrite (cl_layers _ _ _ Hcl).
  destruct (residual_guard_fires i y0 (max_height - y0) s1) as (layer' & s2 & _ & Hrun2 & Hcl2 & _);
    [lia | assumption |].
  exists s2. unfold bind. rewrite Hrun2. split; [reflexivity|].
  pose proof (closes_trans _ _ _ _ _ Hcl Hcl2) as Hcl3. cbn in Hcl3.
  replace (y0 + (max_height - y0)) with max_height in Hcl3 by lia.
  rewrite (cl_created _ _ _ Hcl) in Hcl3. cbn in Hcl3.
  now rewrite Nat.add_1_r in Hcl3.
Qed.


(** *** The stacking phase *)

Lemma set_nth_length l i v : List.length (set_nth l i v) = List.length l.
Proof.
  revert i. induction l as [|x l IH]; intros [|i]; cbn; auto.
Qed.

Lemma set_nth_same l i v d : (i < List.length l)%nat -> nth i (set_nth l i v) d = v.
Proof.
  revert i. induction l as [|x l IH]; intros [|i] Hi; cbn in *; try lia; auto.
  apply IH. lia.
Qed.

Lemma set_nth_other l i j v d : i <> j -> nth j (set_nth l i v) d = nth j l d.
Proof.
  revert i j. induction l as [|x l IH]; intros [|i] [|j] Hij; cbn; try congruence; auto.
Qed.

Lemma column_app i a b : column i (a ++ b) = column i a ++ column i b.
Proof. apply filter_app. Qed.

Lemma chain_snoc y l p : chain y (l ++ [p]) <-> chain y l /\ p_y0 p = top y l.
Proof.
  revert y. induction l as [|q l IH]; intros y; cbn.
  - unfold top. cbn. tauto.
  - rewrite IH. unfold top. cbn. tauto.
Qed.

Lemma top_snoc y l p : top y (l ++ [p]) = p_y1 p.
Proof. unfold top. now rewrite fold_left_app. Qed.

Lemma stack_cell_keeps nb bh n i s :
  1 <= nb ->
  (forall b, 1 <= b <= nb -> lookup bh b <> None) ->
  (i < n)%nat ->
  stacked nb bh n s ->
  exists s' p,
    stack_cell rng render nb bh i s = Ret (tt, s') /\
    stacked nb bh n s' /\
    panels (trace s') = panels (trace s) ++ [p] /\
    p_col p = i.
Proof.
  intros Hnb Hbh Hi [Hlen Hincl Hnd Hsrfs Hcr Hps Hreg Hpiles].
  assert (Hy : nth_error (y_bases s) i = Some (nth i (y_bases s) 0))
    by (apply nth_error_nth'; lia).
  destruct (stack_cell_effect nb bh i s _ Hnb Hbh Hy Hincl)
    as (r & s' & El & Hrun & Ey & Ereg & Hincl' & Esrfs & Ecr & Epan & _).
  set (b := 1 + Z.of_nat (rng (drawn s)) mod nb) in *.
  set (y0 := nth i (y_bases s) 0) in *.
  set (srf := handle render (created s)) in *.
  assert (Hb : 1 <= b <= nb).
  { subst b. pose proof (Z.mod_pos_bound (Z.of_nat (rng (drawn s))) nb). lia. }
  assert (Hkeep : forall x, In x (existing_layers s) -> In x (existing_layers s')).
  { intros x Hx. rewrite Ereg. destruct (mem _ _); [assumption|].
    apply in_or_app. now left. }
  assert (Hnew : In (layer_of b) (existing_layers s')).
  { rewrite Ereg. destruct (mem _ _) eqn:Em; [now apply mem_In|].
    apply in_or_app. right. now left. }
  exists s', (Panel (Stacked b) i y0 (y0 + r) srf).
  split; [assumption|]. split; [|split; [assumption | reflexivity]].
  constructor.
  - now rewrite Ey, set_nth_length.
  - assumption.
  - rewrite Ereg. destruct (mem _ _) eqn:Em; [assumption|].
    apply NoDup_app; [assumption | repeat constructor; intros [] |].
    intros x Hx [<-|[]]. apply mem_In in Hx. congruence.
  - rewrite Esrfs, Epan, flat_map_app, Hsrfs. cbn. reflexivity.
  - rewrite Ecr, Epan, length_app, Hcr. cbn. lia.
  - rewrite Epan. apply Forall_app. split.
    + eapply Forall_impl; [|exact Hps]. cbn.
      intros p (Hc & b' & Hs & Hr & Hl & Hin). split; [assumption|].
      exists b'. auto.
    + constructor; [|constructor]. split; [assumption|]. exists b.
      repeat split; try assumption; try lia.
      unfold height. cbn. rewrite El. f_equal. lia.
  - intros name Hin. rewrite Ereg in Hin. rewrite Epan.
    assert (Hold : In name (existing_layers s) ->
                   exists p b0, In p (panels (trace s) ++ [Panel (Stacked b) i y0 (y0 + r) srf]) /\
                                p_site p = Stacked b0 /\ name = layer_of b0).
    { intros Hn. destruct (Hreg _ Hn) as (p & b0 & Hp & Hs & Hn').
      exists p, b0. split; [apply in_or_app; now left | auto]. }
    destruct (mem _ _); [now apply Hold|].
    apply in_app_or in Hin. destruct Hin as [Hin|[<-|[]]]; [now apply Hold|].
    eexists. exists b. split; [apply in_or_app; right; now left | auto].
  - intros j Hj. rewrite Epan, column_app. cbn.
    destruct (Nat.eqb_spec i j) as [->|Hij].
    + destruct (Hpiles j Hj) as [Hc Ht]. rewrite chain_snoc, top_snoc. cbn.
      rewrite Ey, set_nth_same by lia. repeat split; auto.
    + rewrite app_nil_r, Ey, set_nth_other by assumption. now apply Hpiles.
Qed.

Lemma for_each_spec {A} (Inv : state -> Prop) (R : A -> list panel -> Prop)
    (l : list A) (body : A -> M unit) :
  (forall x s, In x l -> Inv s ->
     exists s' new, body x s = Ret (tt, s') /\ Inv s' /\
                    panels (trace s') = panels (trace s) ++ new /\ R x new) ->
  forall s, Inv s ->
    exists s' news, for_each l body s = Ret (tt, s') /\ Inv s' /\
                    panels (trace s') = panels (trace s) ++ List.concat news /\
                    Forall2 R l news.
Proof.
  induction l as [|x l IH]; intros Hbody s Hs.
  - exists s, []. cbn. rewrite app_nil_r. repeat split; auto.
  - destruct (Hbody x s (or_introl eq_refl) Hs) as (s1 & new & Hrun & Hs1 & Hp & HR).
    destruct (IH (fun y t Hy => Hbody y t (or_intror Hy)) s1 Hs1)
      as (s2 & news & Hrun2 & Hs2 & Hp2 & HR2).
    exists s2, (new :: news). cbn [for_each]. unfold bind. rewrite Hrun.
    split; [exact Hrun2|]. split; [assumption|]. split.
    + rewrite Hp2, Hp. cbn. now rewrite app_assoc.
    + now constructor.
Qed.

Lemma concat_cols {A} (f : A -> list nat) (l : list A) (news : list (list panel)) :
  Forall2 (fun x new => map p_col new = f x) l news ->
  map p_col (List.concat news) = flat_map f l.
Proof.
  induction 1 as [|x new l news Hx _ IH]; cbn; [reflexivity|].
  now rewrite map_app, Hx, IH.
Qed.

Lemma stacker_effect nb bh xNum yNum s :
  1 <= nb ->
  (forall b, 1 <= b <= nb -> lookup bh b <> None) ->
  stacked nb bh (Z.to_nat xNum) s ->
  exists s' new,
    stacker rng render nb bh xNum yNum s = Ret (tt, s') /\
    stacked nb bh (Z.to_nat xNum) s' /\
    panels (trace s') = panels (trace s) ++ new /\
    map p_col new = flat_map (fun _ => range xNum) (range yNum).
Proof.
  intros Hnb Hbh Hs. unfold stacker.
  destruct (for_each_spec (stacked nb bh (Z.to_nat xNum))
              (fun (_ : nat) new => map p_col new = range xNum)
              (range yNum)
              (fun _ => for_each (range xNum) (fun i => stack_cell rng render nb bh i)))
    with (s := s) as (s' & news & Hrun & Hs' & Hp & HR); [|assumption|].
  - intros _ t _ Ht.
    destruct (for_each_spec (stacked nb bh (Z.to_nat xNum))
                (fun (i : nat) new => map p_col new = [i])
                (range xNum) (fun i => stack_cell rng render nb bh i))
      with (s := t) as (t' & cells & Hrun & Ht' & Hp & HR); [|assumption|].
    + intros i u Hi Hu. apply in_seq in Hi.
      destruct (stack_cell_keeps nb bh (Z.to_nat xNum) i u Hnb Hbh) as (u' & p & H1 & H2 & H3 & H4);
        [lia | assumption |].
      exists u', [p]. cbn. rewrite H4. auto.
    + exists t', (List.concat cells).
      split; [assumption|]. split; [assumption|]. split; [assumption|].
      rewrite (concat_cols (fun i => [i]) _ _ HR).
      clear. induction (range xNum) as [|i l IH]; cbn; congruence.
  - exists s', (List.concat news).
    split; [assumption|]. split; [assumption|]. split; [assumption|].
    apply (concat_cols (fun _ => range xNum) _ _ HR).
Qed.


(** *** The gap-closing phase *)

Lemma for_collect_spec {A B} (P : state -> Prop) (R : A -> B -> Prop)
    (G : panel -> Prop) (bound : nat) (l : list A) (body : A -> M B) :
  (forall s s' new, P s -> closes s s' new -> P s') ->
  (forall x s, In x l -> P s ->
     exists b s' new, body x s = Ret (b, s') /\ closes s s' new /\
                      R x b /\ Forall G new /\ (List.length new <= bound)%nat) ->
  forall s, P s ->
    exists bs s' new, for_collect l body s = Ret (bs, s') /\ closes s s' new /\
                      Forall2 R l bs /\ Forall G new /\
                      (List.length new <= List.length l * bound)%nat.
Proof.
  intros Hstable. induction l as [|x l IH]; intros Hbody s Hs.
  - exists [], s, []. cbn. split; [reflexivity|]. split; [apply closes_refl|].
    split; [constructor|]. split; [constructor | lia].
  - destruct (Hbody x s (or_introl eq_refl) Hs)
      as (b & s1 & new & Hrun & Hcl & HR & HG & Hn).
    destruct (IH (fun y t Hy => Hbody y t (or_intror Hy)) s1 (Hstable _ _ _ Hs Hcl))
      as (bs & s2 & new2 & Hrun2 & Hcl2 & HR2 & HG2 & Hn2).
    exists (b :: bs), s2, (new ++ new2). cbn [for_collect]. unfold bind at 1.
    rewrite Hrun. unfold bind. rewrite Hrun2. cbn.
    split; [reflexivity|]. split; [exact (closes_trans _ _ _ _ _ Hcl Hcl2)|].
    split; [now constructor|]. split; [now apply Forall_app|].
    rewrite length_app. lia.
Qed.

Lemma fold_max_ge (l : list Z) (a : Z) :
  a <= fold_left Z.max l a /\ forall y, In y l -> y <= fold_left Z.max l a.
Proof.
  revert a. induction l as [|x l IH]; intros a; cbn.
  - split; [lia | intros y []].
  - destruct (IH (Z.max a x)) as [H1 H2]. split; [lia|].
    intros y [<-|Hy]; [lia | auto].
Qed.

Lemma fold_max_In (l : list Z) (a : Z) :
  fold_left Z.max l a = a \/ In (fold_left Z.max l a) l.
Proof.
  revert a. induction l as [|x l IH]; intros a; cbn; [now left|].
  destruct (IH (Z.max a x)) as [E|Hin]; [|now right; right].
  rewrite E. destruct (Z.max_spec a x) as [[_ ->]|[_ ->]]; [right|]; now left.
Qed.

Lemma max_of_spec (l : list Z) (m : Z) :
  max_of l = Some m -> In m l /\ forall y, In y l -> y <= m.
Proof.
  destruct l as [|a l]; cbn; [discriminate|]. intros [= <-].
  destruct (fold_max_ge l a) as [H1 H2]. split.
  - destruct (fold_max_In l a) as [->|Hin]; [now left | now right].
  - intros y [<-|Hy]; auto.
Qed.

Lemma gap_closer_effect (fuel : nat) bh hmin xNum s m :
  (forall b h, In (b, h) bh -> hmin <= h) ->
  guard_eps < hmin ->
  max_of (y_bases s) = Some m ->
  List.length (y_bases s) = Z.to_nat xNum ->
  existing_layers s <> [] \/ Forall (fun y => m - y < guard_eps) (y_bases s) ->
  Forall (fun y => m - y <= hmin * Z.of_nat fuel + guard_eps) (y_bases s) ->
  exists finals s' new,
    gap_closer rng render fuel bh xNum s = Ret ((m, finals), s') /\
    closes s s' new /\
    Forall2 (fun (_ : nat) f =>
               snd f = m - fst f /\
               (Forall (fun y => aligned bh hmin (m - y)) (y_bases s) -> fst f = m))
            (range xNum) finals /\
    Forall (fun p => gap_panel bh (p_col p) p /\
                     (p_col p < Z.to_nat xNum)%nat /\
                     (Forall (fun y => aligned bh hmin (m - y)) (y_bases s) ->
                      is_filler p = false)) new /\
    (List.length new <= Z.to_nat xNum * S fuel)%nat.
Proof.
  intros Hmin Heps Hm Hlen Hreg Hfuel. unfold gap_closer, bind at 1, max_y_bases.
  rewrite Hm.
  destruct (for_collect_spec
              (fun t => y_bases t = y_bases s /\ existing_layers t = existing_layers s)
              (fun (_ : nat) f =>
               snd f = m - fst f /\
               (Forall (fun y => aligned bh hmin (m - y)) (y_bases s) -> fst f = m))
              (fun p => gap_panel bh (p_col p) p /\
                        (p_col p < Z.to_nat xNum)%nat /\
                        (Forall (fun y => aligned bh hmin (m - y)) (y_bases s) ->
                         is_filler p = false))
              (S fuel) (range xNum) (close_column rng render fuel bh m))
    with (s := s) as (finals & s' & new & Hrun & Hcl & HR & HG & Hn).
  - intros t t' new [E1 E2] Hcl. split.
    + now rewrite (cl_y_bases _ _ _ Hcl).
    + now rewrite (cl_layers _ _ _ Hcl).
  - intros i t Hi [E1 E2]. apply in_seq in Hi.
    assert (Hy : nth_error (y_bases t) i = Some (nth i (y_bases s) 0))
      by (rewrite E1; apply nth_error_nth'; lia).
    assert (Hin : In (nth i (y_bases s) 0) (y_bases s)) by (apply nth_In; lia).
    destruct (close_column_effect bh i m hmin Hmin Heps fuel t _ Hy)
      as (y & g & t' & new & Hrun & Hcl & Hg & Hall & Hcount & Hexact).
    + rewrite E2. destruct Hreg as [|Hsmall]; [now left | right].
      rewrite Forall_forall in Hsmall. now apply Hsmall.
    + rewrite Forall_forall in Hfuel. now apply Hfuel.
    + exists (y, g), t', new. split; [assumption|]. split; [assumption|].
      split; [|split; [|assumption]].
      * cbn. split; [assumption|]. intros Hal. rewrite Forall_forall in Hal.
        now apply Hexact, Hal.
      * rewrite Forall_forall in *. intros p Hp. destruct (Hall p Hp) as [Hc Hsite].
        split; [now rewrite Hc; split|]. split; [lia|].
        intros Hal. rewrite Forall_forall in Hal.
        destruct (Hexact (Hal _ Hin)) as (_ & Hnf & _). now apply Hnf.
  - split; reflexivity.
  - exists finals, s', new. unfold bind. rewrite Hrun. cbn.
    unfold range in Hn. rewrite length_seq in Hn. auto.
Qed.


(** *** Piles during gap closing *)

Lemma chain_app y a b : chain y (a ++ b) <-> chain y a /\ chain (top y a) b.
Proof.
  revert y. induction a as [|p a IH]; intros y; cbn.
  - unfold top. cbn. tauto.
  - rewrite IH. unfold top. cbn. tauto.
Qed.

Lemma top_app y a b : top y (a ++ b) = top (top y a) b.
Proof. unfold top. now rewrite fold_left_app. Qed.

Lemma column_all i ps : Forall (fun p => p_col p = i) ps -> column i ps = ps.
Proof.
  induction 1 as [|p ps Hp _ IH]; cbn; [reflexivity|].
  rewrite Hp, Nat.eqb_refl. now f_equal.
Qed.

Lemma column_none i j ps : Forall (fun p => p_col p = i) ps -> j <> i -> column j ps = [].
Proof.
  intros H Hj. induction H as [|p ps Hp _ IH]; cbn; [reflexivity|].
  rewrite Hp. destruct (Nat.eqb_spec i j); [congruence | assumption].
Qed.

Lemma for_collect_seq {B} (P : nat -> state -> Prop) (body : nat -> M B) (len : nat) :
  forall a s,
    (forall i t, (a <= i < a + len)%nat -> P i t ->
       exists b t', body i t = Ret (b, t') /\ P (S i) t') ->
    P a s ->
    exists bs s', for_collect (seq a len) body s = Ret (bs, s') /\ P (a + len)%nat s'.
Proof.
  induction len as [|len IH]; intros a s Hbody Hs.
  - exists [], s. rewrite Nat.add_0_r. now split.
  - destruct (Hbody a s) as (b & s1 & Hrun & Hs1); [lia | assumption |].
    destruct (IH (S a) s1) as (bs & s2 & Hrun2 & Hs2); [|assumption|].
    + intros i t Hi. apply Hbody. lia.
    + exists (b :: bs), s2. cbn [seq for_collect]. unfold bind at 1. rewrite Hrun.
      unfold bind. rewrite Hrun2. cbn. split; [reflexivity|].
      now replace (a + S len)%nat with (S a + len)%nat by lia.
Qed.

(** When every gap is aligned with the catalog, gap closing tops up every
    pile to [m] with catalog panels. *)
Lemma gap_closer_piles (fuel : nat) bh hmin xNum s m :
  (forall b h, In (b, h) bh -> hmin <= h) ->
  guard_eps < hmin ->
  max_of (y_bases s) = Some m ->
  List.length (y_bases s) = Z.to_nat xNum ->
  existing_layers s <> [] \/ Forall (fun y => m - y < guard_eps) (y_bases s) ->
  Forall (fun y => m - y <= hmin * Z.of_nat fuel + guard_eps) (y_bases s) ->
  Forall (fun y => aligned bh hmin (m - y)) (y_bases s) ->
  (forall j, (j < Z.to_nat xNum)%nat ->
     chain 0 (column j (panels (trace s))) /\
     top 0 (column j (panels (trace s))) = nth j (y_bases s) 0) ->
  exists r s',
    gap_closer rng render fuel bh xNum s = Ret (r, s') /\
    forall j, (j < Z.to_nat xNum)%nat ->
      chain 0 (column j (panels (trace s'))) /\
      top 0 (column j (panels (trace s'))) = m.
Proof.
  intros Hmin Heps Hm Hlen Hreg Hfuel Hal Hpiles.
  unfold gap_closer, bind at 1, max_y_bases. rewrite Hm.
  destruct (for_collect_seq
              (fun a t => y_bases t = y_bases s /\ existing_layers t = existing_layers s /\
                          forall j, (j < Z.to_nat xNum)%nat ->
                            chain 0 (column j (panels (trace t))) /\
                            top 0 (column j (panels (trace t))) =
                              if (j <? a)%nat then m else nth j (y_bases s) 0)
              (close_column rng render fuel bh m) (Z.to_nat xNum) 0%nat s)
    as (finals & s' & Hrun & _ & _ & Hfinal).
  - intros i t Hi (E1 & E2 & Hp).
    assert (Hy : nth_error (y_bases t) i = Some (nth i (y_bases s) 0))
      by (rewrite E1; apply nth_error_nth'; lia).
    assert (Hin : In (nth i (y_bases s) 0) (y_bases s)) by (apply nth_In; lia).
    rewrite Forall_forall in Hfuel, Hal.
    destruct (close_column_effect bh i m hmin Hmin Heps fuel t _ Hy)
      as (y & g & t' & new & Hrun & Hcl & _ & Hall & _ & Hexact).
    + rewrite E2. destruct Hreg as [|Hsmall]; [now left | right].
      rewrite Forall_forall in Hsmall. now apply Hsmall.
    + now apply Hfuel.
    + destruct (Hexact (Hal _ Hin)) as (_ & _ & Hch & Htop).
      assert (Hcol : Forall (fun p => p_col p = i) new).
      { eapply Forall_impl; [|exact Hall]. now intros p [Hc _]. }
      exists (y, g), t'. split; [assumption|].
      split; [now rewrite (cl_y_bases _ _ _ Hcl)|].
      split; [now rewrite (cl_layers _ _ _ Hcl)|].
      intros j Hj. rewrite (cl_panels _ _ _ Hcl), column_app.
      destruct (Hp j Hj) as [Hcj Htj].
      destruct (Nat.eq_dec j i) as [->|Hne].
      * rewrite (column_all _ _ Hcol), chain_app, top_app, Htj.
        replace (i <? i)%nat with false by (symmetry; apply Nat.ltb_ge; lia).
        replace (i <? S i)%nat with true by (symmetry; apply Nat.ltb_lt; lia).
        auto.
      * rewrite (column_none _ _ _ Hcol Hne), app_nil_r.
        split; [assumption|]. rewrite Htj.
        destruct (Nat.ltb_spec j i), (Nat.ltb_spec j (S i)); try lia; reflexivity.
  - split; [reflexivity|]. split; [reflexivity|]. intros j Hj.
    destruct (Hpiles j Hj). auto.
  - exists (m, finals), s'. unfold range, bind. rewrite Hrun. cbn.
    split; [reflexivity|]. intros j Hj. destruct (Hfinal j Hj) as [Hc Ht].
    split; [assumption|]. rewrite Ht.
    now replace (j <? 0 + Z.to_nat xNum)%nat with true by (symmetry; apply Nat.ltb_lt; lia).
Qed.

(** *** The whole run *)

Lemma top_cons y p l : top y (p :: l) = top (p_y1 p) l.
Proof. reflexivity. Qed.

Lemma chain_bounds (lo hi : Z) (l : list panel) : forall y,
  chain y l -> Forall (fun p => lo <= height p <= hi) l ->
  y + lo * Z.of_nat (List.length l) <= top y l <= y + hi * Z.of_nat (List.length l).
Proof.
  induction l as [|p l IH]; intros y Hc Hh.
  - unfold top. cbn. lia.
  - destruct Hc as [E Hc]. inversion Hh as [|? ? Hp Hl]; subst.
    specialize (IH _ Hc Hl). rewrite top_cons. unfold height in Hp.
    cbn [List.length]. lia.
Qed.

Lemma chain_divide (d : Z) (l : list panel) : forall y,
  chain y l -> Forall (fun p => (d | height p)) l -> (d | y) -> (d | top y l).
Proof.
  induction l as [|p l IH]; intros y Hc Hh Hy.
  - exact Hy.
  - destruct Hc as [E Hc]. inversion Hh as [|? ? Hp Hl]; subst.
    rewrite top_cons. apply IH; [assumption | assumption |].
    replace (p_y1 p) with (p_y0 p + height p) by (unfold height; lia).
    now apply Z.divide_add_r.
Qed.

Lemma column_length (i : nat) (ps : list panel) :
  List.length (column i ps) = List.length (filter (fun j => (j =? i)%nat) (map p_col ps)).
Proof.
  unfold column. induction ps as [|p ps IH]; cbn; [reflexivity|].
  destruct (p_col p =? i)%nat; cbn; now rewrite IH.
Qed.

Lemma filter_seq_one (i a n : nat) :
  (a <= i < a + n)%nat -> filter (fun j => (j =? i)%nat) (seq a n) = [i].
Proof.
  revert a. induction n as [|n IH]; intros a Hi; [lia|]. cbn.
  destruct (Nat.eqb_spec a i) as [->|Hne].
  - f_equal. clear. assert (Hlt : (i < S i)%nat) by lia. revert Hlt.
    generalize (S i). induction n as [|n IH]; intros a Ha; cbn; [reflexivity|].
    destruct (Nat.eqb_spec a i); [lia | apply IH; lia].
  - apply IH. lia.
Qed.

Lemma rows_count {A} (i n : nat) (rows : list A) :
  (i < n)%nat ->
  List.length (filter (fun j => (j =? i)%nat) (flat_map (fun _ => seq 0 n) rows)) =
  List.length rows.
Proof.
  intros Hi. induction rows as [|r rows IH]; cbn; [reflexivity|].
  rewrite filter_app, length_app, IH, filter_seq_one by lia. reflexivity.
Qed.

Lemma column_In i p ps : In p (column i ps) -> In p ps /\ p_col p = i.
Proof.
  unfold column. rewrite filter_In. intros [H E].
  split; [assumption | now apply Nat.eqb_eq].
Qed.

(** After [rows] full rows, every column stands between [rows] smallest and
    [rows] largest catalog sizes, and on a multiple of the base size when the
    step is one. *)
Lemma stacked_heights c nb xNum (rows : list nat) s :
  valid c -> num_buckets c = Some nb ->
  stacked nb (bucket_heights c nb) (Z.to_nat xNum) s ->
  map p_col (panels (trace s)) = flat_map (fun _ => range xNum) rows ->
  Forall (fun y =>
            base c * Z.of_nat (List.length rows) <= y <= max_r c * Z.of_nat (List.length rows) /\
            ((base c | bucket_size c) -> (base c | y)))
         (y_bases s).
Proof.
  intros Hv Hnb Hs Hcols. apply Forall_forall. intros y Hy.
  destruct (In_nth _ _ 0 Hy) as (i & Hi & <-).
  rewrite (st_len _ _ _ _ Hs) in Hi.
  destruct (st_piles _ _ _ _ Hs i Hi) as [Hc ->].
  assert (Hlen : List.length (column i (panels (trace s))) = List.length rows).
  { rewrite column_length, Hcols. now apply rows_count. }
  assert (Hcat : forall p, In p (column i (panels (trace s))) ->
                 exists b, 1 <= b <= nb /\ height p = base c + (b - 1) * bucket_size c).
  { intros p Hp. apply column_In in Hp. destruct Hp as [Hp _].
    pose proof (st_panels _ _ _ _ Hs) as Hall. rewrite Forall_forall in Hall.
    destruct (Hall p Hp) as (_ & b & _ & Hb & Hl & _).
    apply lookup_In, bucket_heights_In in Hl. exists b. tauto. }
  split.
  - rewrite <- Hlen.
    pose proof (chain_bounds (base c) (max_r c) _ 0 Hc) as Hb. cbn in Hb. apply Hb.
    apply Forall_forall. intros p Hp. destruct (Hcat p Hp) as (b & Hb' & Hh).
    apply (bucket_bounds c nb b); [assumption | assumption |].
    apply bucket_heights_In. auto.
  - intros Hd. apply chain_divide; [assumption | | apply Z.divide_0_r].
    apply Forall_forall. intros p Hp. destruct (Hcat p Hp) as (b & _ & ->).
    apply Z.divide_add_r; [apply Z.divide_refl | now apply Z.divide_mul_r].
Qed.

Lemma boot_stacked nb bh xNum layers :
  init_locals xNum (boot layers) =
    Ret (tt, State [] (map (fun _ => 0) (range xNum)) [] 0 0 layers []) /\
  stacked nb bh (Z.to_nat xNum)
    (State [] (map (fun _ => 0) (range xNum)) [] 0 0 layers []).
Proof.
  split; [reflexivity|]. constructor; cbn.
  - unfold range. now rewrite length_map, length_seq.
  - intros x [].
  - constructor.
  - reflexivity.
  - reflexivity.
  - constructor.
  - intros name [].
  - intros i Hi. split; [exact I|]. unfold top. cbn.
    exact (map_nth (fun _ : nat => 0) (range xNum) 0%nat i).
Qed.

Lemma run_effect (c : config) (fuel : nat) (xNum yNum : Z) (layers : list string) nb :
  valid c -> guard_eps < base c ->
  num_buckets c = Some nb ->
  1 <= xNum ->
  (max_r c - base c) * yNum <= base c * Z.of_nat fuel ->
  let bh := bucket_heights c nb in
  exists s1 m finals s gap_ps,
    stacked nb bh (Z.to_nat xNum) s1 /\
    map p_col (panels (trace s1)) = flat_map (fun _ => range xNum) (range yNum) /\
    max_of (y_bases s1) = Some m /\
    pavPattern_with rng render c fuel xNum yNum (boot layers) = Ret ((m, finals), s) /\
    closes s1 s gap_ps /\
    Forall2 (fun (i : nat) f => snd f = m - fst f /\
                                ((base c | bucket_size c) -> fst f = m))
            (range xNum) finals /\
    Forall (fun p => gap_panel bh (p_col p) p /\
                     (p_col p < Z.to_nat xNum)%nat /\
                     ((base c | bucket_size c) -> is_filler p = false)) gap_ps /\
    (List.length gap_ps <= Z.to_nat xNum * S fuel)%nat /\
    ((base c | bucket_size c) ->
     forall j, (j < Z.to_nat xNum)%nat ->
       chain 0 (column j (panels (trace s))) /\
       top 0 (column j (panels (trace s))) = m).
Proof.
  intros Hv Heps Hnb Hx Hfuel bh.
  pose proof (num_buckets_pos c nb Hv Hnb) as Hk.
  assert (Hlook : forall b, 1 <= b <= nb -> lookup bh b <> None).
  { intros b Hb. unfold bh. now rewrite lookup_bucket. }
  destruct (boot_stacked nb bh xNum layers) as [Hinit Hs0].
  destruct (stacker_effect nb bh xNum yNum _ Hk Hlook Hs0)
    as (s1 & stack_ps & Hrun1 & Hs1 & Hp1 & Hcols).
  cbn in Hp1. rewrite <- Hp1 in Hcols.
  pose proof (stacked_heights c nb xNum (range yNum) s1 Hv Hnb Hs1 Hcols) as Hh.
  set (k := Z.of_nat (List.length (range yNum))) in *.
  assert (Hkk : 0 <= k /\ (max_r c - base c) * k <= base c * Z.of_nat fuel).
  { subst k. unfold range. rewrite length_seq. destruct Hv. unfold guard_eps in *.
    destruct (Z.le_gt_cases 0 yNum); [rewrite Z2Nat.id by lia; lia|].
    replace (Z.to_nat yNum) with 0%nat by lia. cbn. nia. }
  destruct (max_of (y_bases s1)) as [m|] eqn:Em.
  2:{ pose proof (st_len _ _ _ _ Hs1) as Hl. destruct (y_bases s1); [cbn in Hl; lia | discriminate]. }
  destruct (max_of_spec _ _ Em) as [Hmin Hmax].
  assert (Hmb : base c * k <= m <= max_r c * k /\ ((base c | bucket_size c) -> (base c | m))).
  { rewrite Forall_forall in Hh. now apply Hh. }
  assert (Hmin' : forall b h, In (b, h) bh -> base c <= h).
  { intros b h Hin. now apply (bucket_bounds c nb b h Hv Hnb). }
  assert (Hreg : existing_layers s1 <> [] \/
                 Forall (fun y => m - y < guard_eps) (y_bases s1)).
  { destruct (panels (trace s1)) as [|p ps] eqn:Ep.
    + right. apply Forall_forall. intros y Hy.
      assert (List.length (range yNum) = 0%nat) as Hz.
      { destruct (range yNum) as [|r rows]; [reflexivity|].
        cbn in Hcols. unfold range in Hcols at 1.
        destruct (Z.to_nat xNum) eqn:En; [lia | discriminate]. }
      rewrite Forall_forall in Hh. destruct (Hh y Hy) as [Hb _].
      subst k. rewrite Hz in *. unfold guard_eps. lia.
    + left. pose proof (st_panels _ _ _ _ Hs1) as Hall. rewrite Ep in Hall.
      inversion Hall as [|? ? (_ & b & _ & _ & _ & Hin) _]; subst.
      intros E. now rewrite E in Hin. }
  assert (Hfu : Forall (fun y => m - y <= base c * Z.of_nat fuel + guard_eps) (y_bases s1)).
  { apply Forall_forall. intros y Hy. rewrite Forall_forall in Hh.
    destruct (Hh y Hy) as [Hb _]. unfold guard_eps. nia. }
  destruct (gap_closer_effect fuel bh (base c) xNum s1 m Hmin' Heps Em (st_len _ _ _ _ Hs1)
              Hreg Hfu)
    as (finals & s & gap_ps & Hrun2 & Hcl & HR & HG & Hcount).
  assert (Hal : (base c | bucket_size c) ->
                Forall (fun y => aligned bh (base c) (m - y)) (y_bases s1)).
  { intros Hd. apply Forall_forall. intros y Hy. rewrite Forall_forall in Hh.
    destruct (Hh y Hy) as [_ Hdy]. repeat split.
    - exists 1. apply bucket_heights_In. split; [lia|]. lia.
    - intros b h Hin. apply bucket_heights_In in Hin. destruct Hin as [_ ->].
      apply Z.divide_add_r; [apply Z.divide_refl | now apply Z.divide_mul_r].
    - apply Z.divide_sub_r; [now apply Hmb | now apply Hdy].
    - specialize (Hmax y Hy). lia. }
  exists s1, m, finals, s, gap_ps.
  split; [assumption|]. split; [assumption|]. split; [exact Em|]. split.
  { unfold pavPattern_with, bind at 1. rewrite Hinit, Hnb. fold bh.
    unfold bind. rewrite Hrun1. exact Hrun2. }
  split; [assumption|]. split; [|split; [|split; [assumption|]]].
  - eapply Forall2_impl; [|exact HR]. cbn. intros i f [E Hex]. split; [assumption|].
    intros Hd. apply Hex. now apply Hal.
  - eapply Forall_impl; [|exact HG]. cbn. intros p (H1 & H2 & H3).
    split; [assumption|]. split; [assumption|]. intros Hd. now apply H3, Hal.
  - intros Hd.
    destruct (gap_closer_piles fuel bh (base c) xNum s1 m Hmin' Heps Em
                (st_len _ _ _ _ Hs1) Hreg Hfu (Hal Hd))
      as (r' & s' & Hrun3 & Hpiles).
    + intros j Hj. destruct (st_piles _ _ _ _ Hs1 j Hj) as [Hc Ht]. auto.
    + rewrite Hrun2 in Hrun3. injection Hrun3 as _ <-. exact Hpiles.
Qed.

End Run.

(** * The properties of the script *)

(** ** Closing the gaps *)

(** C8.  In the catalog-fit branch the script picks one of the sizes that
    fit, [(b, h)], and requests a panel of height [h] on top of the column.
    When the surface is created, its layer is a random element of the whole
    registry if [h] equals the gap within 1e-6, and the layer of bucket [b]
    otherwise.  (A surface that is not created gets no layer.) *)
Theorem fit_branch_tagging
    (rng : nat -> nat) (render : nat -> bool) (bh : list (Z * Z)) (i : nat)
    (max_height current_y gap : Z) (s : state) :
  valid_fits bh gap <> [] ->
  existing_layers s <> [] ->
  exists b h random_layer s',
    nth_error (valid_fits bh gap)
      (rng (drawn s) mod List.length (valid_fits bh gap)) = Some (b, h) /\
    nth_error (existing_layers s)
      (rng (S (drawn s)) mod List.length (existing_layers s)) = Some random_layer /\
    close_step rng render bh i max_height current_y gap s =
      Ret (Continue (current_y + h) (max_height - (current_y + h)), s') /\
    panels (trace s') =
      panels (trace s) ++
      [Panel (Fitted b) i current_y (current_y + h) (handle render (created s))] /\
    tags (trace s') =
      tags (trace s) ++
      match handle render (created s) with
      | Some g => [(g, if Z.abs (gap - h) <? eq_eps then random_layer else layer_of b)]
      | None => []
      end.
Proof.
  intros Hf Hl.
  destruct (close_step_fit rng render bh i max_height current_y gap s Hf Hl)
    as (b & h & layer & s' & H1 & H2 & H3 & Hcl & H5).
  exists b, h, layer, s'. repeat (split; [assumption|]).
  split; [exact (cl_panels _ _ _ Hcl) | exact H5].
Qed.

(** A column at 2.0 under a top at 3.0, with the catalog of the script: the
    draw picks the second of the two sizes that fit, 1.0, which closes the
    gap, and the layer is drawn from the registry. *)
Lemma fit_branch_tagging_witness :
  valid_fits (bucket_heights shipped 6) 1000000 <> [] /\
  existing_layers stalled <> [] /\
  exists s',
    close_step (tape [1; 0]%nat) (always true) (bucket_heights shipped 6) 0
      3000000 2000000 1000000 stalled = Ret (Continue 3000000 0, s') /\
    tags (trace s') = [(0%nat, "Height_Group_1"%string)].
Proof.
  assert (Hf : valid_fits (bucket_heights shipped 6) 1000000 <> []) by discriminate.
  assert (Hl : existing_layers stalled <> []) by discriminate.
  split; [exact Hf|]. split; [exact Hl|].
  destruct (fit_branch_tagging (tape [1; 0]%nat) (always true) (bucket_heights shipped 6)
              0 3000000 2000000 1000000 stalled Hf Hl)
    as (b & h & layer & s' & H1 & H2 & H3 & _ & H5).
  vm_compute in H1. injection H1 as <- <-.
  vm_compute in H2. injection H2 as <-.
  exists s'. split; [exact H3 | exact H5].
Defined.

(** C9.  Whatever the column's state, every filler the gap closer requests
    for it, in the fallback branch or after the loop, is lower than every
    catalog size, hence lower than the smallest one.  The catalog sizes are
    taken above the loop guard 0.001, as those of the script are. *)
Theorem filler_below_catalog
    (rng : nat -> nat) (render : nat -> bool) (bh : list (Z * Z)) (hmin : Z)
    (fuel : nat) (max_height : Z) (i : nat) (s : state) (y0 : Z) :
  (forall b h, In (b, h) bh -> hmin <= h) ->
  guard_eps < hmin ->
  nth_error (y_bases s) i = Some y0 ->
  existing_layers s <> [] ->
  max_height - y0 <= hmin * Z.of_nat fuel + guard_eps ->
  exists final s' new,
    close_column rng render fuel bh max_height i s = Ret (final, s') /\
    panels (trace s') = panels (trace s) ++ new /\
    forall p, In p new -> is_filler p = true ->
      forall b h, In (b, h) bh -> height p < h.
Proof.
  intros Hmin Heps Hy Hreg Hfuel.
  destruct (close_column_effect rng render bh i max_height hmin Hmin Heps fuel s y0 Hy
              (or_introl Hreg) Hfuel)
    as (y & g & s' & new & Hrun & Hcl & _ & Hall & _).
  exists (y, g), s', new. split; [assumption|]. split; [exact (cl_panels _ _ _ Hcl)|].
  intros p Hp Hfill. rewrite Forall_forall in Hall. destruct (Hall p Hp) as [_ Hsite].
  unfold is_filler in Hfill. destruct (p_site p); try discriminate; assumption.
Qed.

Lemma shipped_sizes b h : In (b, h) (bucket_heights shipped 6) -> 500000 <= h.
Proof.
  intros Hin. apply (bucket_bounds shipped 6 b h) in Hin; [cbn in Hin; lia | | reflexivity].
  split; cbn; lia.
Qed.

(** The column at 2.7 under the top at 3.0: the fillers requested have
    height 0.3, below 0.5. *)
Lemma filler_below_catalog_witness :
  exists final s' new,
    close_column (tape []) (always true) 10 (bucket_heights shipped 6) 3000000 0 stalled =
      Ret (final, s') /\
    panels (trace s') = panels (trace stalled) ++ new /\
    forall p, In p new -> is_filler p = true ->
      forall b h, In (b, h) (bucket_heights shipped 6) -> height p < h.
Proof.
  apply (filler_below_catalog (tape []) (always true) (bucket_heights shipped 6) 500000
           10 3000000 0 stalled 2700000).
  - exact shipped_sizes.
  - reflexivity.
  - reflexivity.
  - discriminate.
  - vm_compute. discriminate.
Defined.

Lemma rows_length {A} (row : list nat) (rows : list A) :
  List.length (flat_map (fun _ => row) rows) = (List.length rows * List.length row)%nat.
Proof.
  induction rows as [|r rows IH]; cbn; [reflexivity|].
  now rewrite length_app, IH.
Qed.

(** C10.  With a catalog whose sizes start above the loop guard, one pass
    through the gap loop either requests a catalog panel and raises the
    column by at least the smallest catalog size, or takes the fallback
    branch and leaves the loop.  So the loop of a column is over within
    [fuel] passes as soon as [fuel] smallest sizes cover the gap; and the
    whole run returns when each column is given [fuel] passes with
    [(max - base) * yNum <= base * fuel]: it makes [xNum * yNum] stacking
    requests and at most [fuel + 1] gap-closing requests per column. *)
Theorem gap_loop_terminates
    (rng : nat -> nat) (render : nat -> bool) (c : config) (nb : Z) :
  valid c -> guard_eps < base c -> num_buckets c = Some nb ->
  let bh := bucket_heights c nb in
  (forall i max_height current_y gap s,
     existing_layers s <> [] ->
     (exists y' s',
        close_step rng render bh i max_height current_y gap s =
          Ret (Continue y' (max_height - y'), s') /\
        current_y + base c <= y') \/
     (exists s',
        close_step rng render bh i max_height current_y gap s =
          Ret (Break current_y gap, s') /\
        valid_fits bh gap = [])) /\
  (forall (fuel : nat) i max_height current_y s,
     existing_layers s <> [] ->
     max_height - current_y <= base c * Z.of_nat fuel + guard_eps ->
     exists final s',
       while_gap rng render fuel bh i max_height current_y (max_height - current_y) s =
         Ret (final, s')) /\
  (forall (fuel : nat) xNum yNum layers,
     1 <= xNum ->
     (max_r c - base c) * yNum <= base c * Z.of_nat fuel ->
     exists r s stack_ps gap_ps,
       pavPattern_with rng render c fuel xNum yNum (boot layers) = Ret (r, s) /\
       panels (trace s) = stack_ps ++ gap_ps /\
       List.length stack_ps = (Z.to_nat yNum * Z.to_nat xNum)%nat /\
       (List.length gap_ps <= Z.to_nat xNum * S fuel)%nat).
Proof.
  intros Hv Heps Hnb bh.
  assert (Hmin : forall b h, In (b, h) bh -> base c <= h).
  { intros b h Hin. now apply (bucket_bounds c nb b h Hv Hnb). }
  split; [|split].
  - intros i max_height current_y gap s Hreg.
    destruct (valid_fits bh gap) as [|d rest] eqn:Ef.
    + right.
      destruct (close_step_fallback rng render bh i max_height current_y gap s Ef Hreg)
        as (layer & s' & _ & Hrun & _). now exists s'.
    + left. assert (Hne : valid_fits bh gap <> []) by (rewrite Ef; discriminate).
      destruct (close_step_fit rng render bh i max_height current_y gap s Hne Hreg)
        as (b & h & layer & s' & Hpick & _ & Hrun & _).
      apply nth_error_In, valid_fits_In in Hpick. destruct Hpick as [Hin _].
      exists (current_y + h), s'. split; [assumption|].
      specialize (Hmin _ _ Hin). lia.
  - intros fuel i max_height current_y s Hreg Hfuel.
    destruct (while_gap_effect rng render bh i max_height (base c) Hmin Heps fuel
                current_y (max_height - current_y) s (or_introl Hreg) eq_refl Hfuel)
      as (y & g & s' & new & Hrun & _).
    now exists (y, g), s'.
  - intros fuel xNum yNum layers Hx Hfuel.
    destruct (run_effect rng render c fuel xNum yNum layers nb Hv Heps Hnb Hx Hfuel)
      as (s1 & m & finals & s & gap_ps & Hs1 & Hcols & _ & Hrun & Hcl & _ & _ & Hcount & _).
    exists (m, finals), s, (panels (trace s1)), gap_ps.
    split; [assumption|]. split; [exact (cl_panels _ _ _ Hcl)|]. split; [|assumption].
    rewrite <- (length_map p_col), Hcols, rows_length. unfold range.
    now rewrite !length_seq.
Qed.

Lemma gap_loop_terminates_witness :
  valid shipped /\ guard_eps < base shipped /\ num_buckets shipped = Some 6 /\
  exists final s',
    while_gap draws_1_6_3 third_fails 5 (bucket_heights shipped 6) 0
      3000000 500000 (3000000 - 500000) stalled = Ret (final, s').
Proof.
  assert (Hv : valid shipped) by (split; cbn; lia).
  assert (Heps : guard_eps < base shipped) by reflexivity.
  assert (Hnb : num_buckets shipped = Some 6) by reflexivity.
  split; [exact Hv|]. split; [exact Heps|]. split; [exact Hnb|].
  destruct (gap_loop_terminates draws_1_6_3 third_fails shipped 6 Hv Heps Hnb)
    as (_ & Hloop & _).
  apply Hloop; [discriminate | vm_compute; discriminate].
Defined.

(** When the step is a multiple of the base size, every gap is closed by
    catalog sizes alone: no filler is requested and every column's
    [current_y] ends on [max_height]. *)
Lemma aligned_run
    (rng : nat -> nat) (render : nat -> bool) (c : config) (nb : Z)
    (fuel : nat) (xNum yNum : Z) (layers : list string) :
  valid c -> guard_eps < base c -> (base c | bucket_size c) ->
  num_buckets c = Some nb ->
  1 <= xNum ->
  (max_r c - base c) * yNum <= base c * Z.of_nat fuel ->
  exists m finals s,
    pavPattern_with rng render c fuel xNum yNum (boot layers) = Ret ((m, finals), s) /\
    max_of (y_bases s) = Some m /\
    List.length finals = Z.to_nat xNum /\
    Forall (fun f => fst f = m /\ snd f = 0) finals /\
    Forall (fun p => is_filler p = false) (panels (trace s)) /\
    (forall j, (j < Z.to_nat xNum)%nat ->
       chain 0 (column j (panels (trace s))) /\
       top 0 (column j (panels (trace s))) = m).
Proof.
  intros Hv Heps Hd Hnb Hx Hfuel.
  destruct (run_effect rng render c fuel xNum yNum layers nb Hv Heps Hnb Hx Hfuel)
    as (s1 & m & finals & s & gap_ps & Hs1 & Hcols & Hm & Hrun & Hcl & HR & HG & _ & Hpiles).
  exists m, finals, s. split; [assumption|].
  split; [now rewrite (cl_y_bases _ _ _ Hcl)|]. split.
  - rewrite <- (Forall2_length HR). unfold range. now rewrite length_seq.
  - split; [|split; [|now apply Hpiles]].
    + clear - HR Hd. induction HR as [|i f l fs [E Hex] _ IH]; constructor; [|assumption].
      specialize (Hex Hd). split; [assumption | lia].
    + rewrite (cl_panels _ _ _ Hcl). apply Forall_app. split.
      * eapply Forall_impl; [|exact (st_panels _ _ _ _ Hs1)]. cbn.
        intros p (_ & b & Hsite & _). unfold is_filler. now rewrite Hsite.
      * eapply Forall_impl; [|exact HG]. cbn. intros p (_ & _ & H). now apply H.
Qed.

(** C2.  For every number of columns and rows, every outcome of the draws
    and every answer of the renderer, the script returns and the running
    height [current_y] of every column ends on [max_height], the largest
    entry of [y_bases] after stacking, within 1e-6.  So does the pile itself:
    the panels requested for a column sit one on top of the other from 0 up
    to [max_height].  Five passes per stacked row are enough for each
    column. *)
Theorem columns_reach_top
    (rng : nat -> nat) (render : nat -> bool) (fuel : nat) (xNum yNum : Z)
    (layers : list string) :
  1 <= xNum ->
  5 * yNum <= Z.of_nat fuel ->
  exists max_height finals s,
    pavPattern_with rng render shipped fuel xNum yNum (boot layers) =
      Ret ((max_height, finals), s) /\
    max_of (y_bases s) = Some max_height /\
    List.length finals = Z.to_nat xNum /\
    Forall (fun final => Z.abs (max_height - fst final) < eq_eps) finals /\
    (forall i, (i < Z.to_nat xNum)%nat ->
       chain 0 (column i (panels (trace s))) /\
       Z.abs (max_height - top 0 (column i (panels (trace s)))) < eq_eps).
Proof.
  intros Hx Hfuel.
  assert (Hv : valid shipped) by (split; cbn; lia).
  assert (Hf : (max_r shipped - base shipped) * yNum <= base shipped * Z.of_nat fuel)
    by (cbn [shipped max_r base]; lia).
  destruct (aligned_run rng render shipped 6 fuel xNum yNum layers Hv eq_refl
              (Z.divide_refl _) eq_refl Hx Hf)
    as (m & finals & s & Hrun & Hm & Hlen & Hfin & _ & Hpiles).
  exists m, finals, s. repeat (split; [assumption|]). split.
  - eapply Forall_impl; [|exact Hfin]. cbn. intros f [-> _].
    rewrite Z.sub_diag. reflexivity.
  - intros i Hi. destruct (Hpiles i Hi) as [Hc ->]. split; [assumption|].
    rewrite Z.sub_diag. reflexivity.
Qed.

Lemma columns_reach_top_witness :
  1 <= 2 /\ 5 * 1 <= Z.of_nat 5 /\
  exists max_height finals s,
    pavPattern_with draws_1_6_3 third_fails shipped 5 2 1 (boot []) =
      Ret ((max_height, finals), s) /\
    Forall (fun final => Z.abs (max_height - fst final) < eq_eps) finals.
Proof.
  assert (H1 : 1 <= 2) by lia.
  assert (H2 : 5 * 1 <= Z.of_nat 5) by (cbn; lia).
  split; [exact H1|]. split; [exact H2|].
  destruct (columns_reach_top draws_1_6_3 third_fails 5 2 1 [] H1 H2)
    as (m & finals & s & Hrun & _ & _ & Hall & _).
  exists m, finals, s. split; [exact Hrun | exact Hall].
Defined.

(** ** The fallback branch *)





(** The fallback branch by itself, entered from a state that no run of the
    script reaches: a column at 2.7 under a top at 3.0, with the catalog of
    the script.  No catalog size fits the gap of 0.3.  The branch requests
    one filler from 2.7 to 3.0 and leaves the loop with [current_y] still
    2.7 and [gap] still 0.3; the guard after the loop then fires and
    requests a second filler over the same span. *)
Lemma fallback_requests_two_fillers :
  valid_fits (bucket_heights shipped 6) (3000000 - 2700000) = [] /\
  exists s',
    close_column (tape []) (always true) 10 (bucket_heights shipped 6) 3000000 0 stalled =
      Ret ((2700000, 300000), s') /\
    panels (trace s') =
      [Panel Fallback 0 2700000 3000000 (Some 0%nat);
       Panel Residual 0 2700000 3000000 (Some 1%nat)] /\
    srfs s' = [Some 0%nat; Some 1%nat].
Proof.
  split; [reflexivity|]. eexists. split; [vm_compute; reflexivity|].
  split; reflexivity.
Qed.

(** The same on a whole run of a variant of the script, [bucket_size] set to
    0.3: column 0 is stacked to 0.5 and column 1 to 0.8, and the gap of 0.3
    gets two fillers. *)
Lemma fallback_twice_on_a_run :
  exists s,
    pavPattern_with draws_1_2 (always true) step_03 10 2 1 (boot []) =
      Ret ((800000, [(500000, 300000); (800000, 0)]), s) /\
    map (fun p => (p_site p, p_col p, p_y0 p, p_y1 p)) (panels (trace s)) =
      [(Stacked 1, 0%nat, 0, 500000); (Stacked 2, 1%nat, 0, 800000);
       (Fallback, 0%nat, 500000, 800000); (Residual, 0%nat, 500000, 800000)].
Proof.
  eexists. split; [vm_compute; reflexivity | reflexivity].
Qed.

(** ** The registry during gap closing *)

(** C4, on a run of the script with two columns and one row: bucket 1 is
    drawn for column 0 and bucket 6 for column 1, so the registry holds the
    layers of buckets 1 and 6.  For the gap of 2.5 of column 0 the fit
    branch picks bucket 3, which does not close the gap, and assigns the
    surface to the layer of bucket 3: a layer that is neither in the
    registry nor in the layer table of the document. *)
Theorem fit_assigns_unregistered_layer :
  exists r s,
    pavPattern_with draws_1_6_3 (always true) shipped 10 2 1 (boot []) = Ret (r, s) /\
    existing_layers s = ["Height_Group_1"; "Height_Group_6"]%string /\
    layer_table s = ["Height_Group_1"; "Height_Group_6"]%string /\
    In (Panel (Fitted 3) 0 500000 2000000 (Some 2%nat)) (panels (trace s)) /\
    In (2%nat, "Height_Group_3"%string) (tags (trace s)) /\
    ~ In "Height_Group_3"%string (existing_layers s).
Proof.
  eexists. eexists. split; [vm_compute; reflexivity|].
  split; [reflexivity|]. split; [reflexivity|].
  split; [cbn; tauto|]. split; [cbn; tauto|].
  cbn. intros [H|[H|[]]]; discriminate.
Qed.

(** The gap-closing phase never writes the registry. *)
Lemma gap_closer_keeps_registry
    (rng : nat -> nat) (render : nat -> bool) (fuel : nat) (bh : list (Z * Z))
    (hmin xNum : Z) (s : state) (m : Z) :
  (forall b h, In (b, h) bh -> hmin <= h) ->
  guard_eps < hmin ->
  max_of (y_bases s) = Some m ->
  List.length (y_bases s) = Z.to_nat xNum ->
  existing_layers s <> [] ->
  Forall (fun y => m - y <= hmin * Z.of_nat fuel + guard_eps) (y_bases s) ->
  exists r s',
    gap_closer rng render fuel bh xNum s = Ret (r, s') /\
    existing_layers s' = existing_layers s /\
    layer_table s' = layer_table s.
Proof.
  intros Hmin Heps Hm Hlen Hreg Hfuel.
  destruct (gap_closer_effect rng render fuel bh hmin xNum s m Hmin Heps Hm Hlen
              (or_introl Hreg) Hfuel)
    as (finals & s' & new & Hrun & Hcl & _).
  exists (m, finals), s'. split; [assumption|].
  split; [exact (cl_layers _ _ _ Hcl) | exact (cl_table _ _ _ Hcl)].
Qed.

(** ** Failed surface creations *)

(** C3 as stated fails on this run of two columns and one row: the third
    surface, the catalog panel that closes the gap of column 0, is not
    created, and the list the script returns holds two handles for three
    panels requested. *)
Lemma failed_fit_is_not_returned :
  exists r s p,
    pavPattern_with draws_1_2 third_fails shipped 10 2 1 (boot []) = Ret (r, s) /\
    In p (panels (trace s)) /\
    p = Panel (Fitted 1) 0 500000 1000000 None /\
    ~ In (p_srf p) (srfs s) /\
    List.length (panels (trace s)) = 3%nat /\
    srfs s = [Some 0%nat; Some 1%nat].
Proof.
  eexists. eexists. eexists. split; [vm_compute; reflexivity|].
  split; [cbn; right; right; left; reflexivity|].
  split; [reflexivity|]. split; [|split; reflexivity].
  cbn. intros [H|[H|[]]]; discriminate.
Qed.

(** C3, amended.  A surface that is not created stops nothing: whatever the
    renderer answers, the script returns, and the panels requested for a
    column, created or not, sit one on top of the other from 0 up to
    [max_height].  The list it returns holds, in the order of the requests,
    every handle of the stacking phase, the null ones included, and of the
    gap-closing phase the handles that were created only. *)
Theorem render_failure_is_not_fatal
    (rng : nat -> nat) (render : nat -> bool) (fuel : nat) (xNum yNum : Z)
    (layers : list string) :
  1 <= xNum ->
  5 * yNum <= Z.of_nat fuel ->
  exists max_height finals s,
    pavPattern_with rng render shipped fuel xNum yNum (boot layers) =
      Ret ((max_height, finals), s) /\
    (forall i, (i < Z.to_nat xNum)%nat ->
       chain 0 (column i (panels (trace s))) /\
       top 0 (column i (panels (trace s))) = max_height) /\
    srfs s = flat_map recorded (panels (trace s)) /\
    pavPattern rng render fuel xNum yNum layers =
      Ret (flat_map recorded (panels (trace s))).
Proof.
  intros Hx Hfuel.
  assert (Hv : valid shipped) by (split; cbn; lia).
  assert (Hf : (max_r shipped - base shipped) * yNum <= base shipped * Z.of_nat fuel)
    by (cbn [shipped max_r base]; lia).
  destruct (run_effect rng render shipped fuel xNum yNum layers 6 Hv eq_refl eq_refl Hx Hf)
    as (s1 & m & finals & s & gap_ps & Hs1 & _ & _ & Hrun & Hcl & _ & _ & _ & Hpiles).
  assert (Hsrfs : srfs s = flat_map recorded (panels (trace s))).
  { rewrite (cl_srfs _ _ _ Hcl), (cl_panels _ _ _ Hcl), flat_map_app.
    now rewrite (st_srfs _ _ _ _ Hs1). }
  exists m, finals, s. split; [assumption|]. split; [|split; [assumption|]].
  - apply Hpiles, Z.divide_refl.
  - unfold pavPattern. now rewrite Hrun, Hsrfs.
Qed.

Lemma render_failure_is_not_fatal_witness :
  1 <= 2 /\ 5 * 1 <= Z.of_nat 10 /\
  exists max_height finals s,
    pavPattern_with draws_1_2 third_fails shipped 10 2 1 (boot []) =
      Ret ((max_height, finals), s) /\
    srfs s = flat_map recorded (panels (trace s)).
Proof.
  assert (H1 : 1 <= 2) by lia.
  assert (H2 : 5 * 1 <= Z.of_nat 10) by (cbn; lia).
  split; [exact H1|]. split; [exact H2|].
  destruct (render_failure_is_not_fatal draws_1_2 third_fails 10 2 1 [] H1 H2)
    as (m & finals & s & Hrun & _ & Hsrfs & _).
  exists m, finals, s. split; [exact Hrun | exact Hsrfs].
Defined.

(** ** Failures *)

Lemma no_column_no_row {A} (rows : list A) (body : nat -> M unit) (s : state) :
  for_each rows (fun _ => for_each [] body) s = Ret (tt, s).
Proof.
  induction rows as [|r rows IH]; cbn; [reflexivity|].
  unfold bind. cbn. exact IH.
Qed.

Lemma no_column_fails
    (rng : nat -> nat) (render : nat -> bool) (c : config) (nb : Z) (fuel : nat)
    (xNum yNum : Z) (layers : list string) :
  num_buckets c = Some nb -> xNum <= 0 ->
  pavPattern_with rng render c fuel xNum yNum (boot layers) = Raise ValueError.
Proof.
  intros Hnb Hx. unfold pavPattern_with, bind at 1. cbn [init_locals].
  rewrite Hnb. unfold stacker, range.
  replace (Z.to_nat xNum) with 0%nat by lia. cbn [seq map].
  unfold bind at 1. rewrite no_column_no_row. reflexivity.
Qed.

(** C5 as stated fails: with no row to stack the script returns, and what it
    returns is the empty list. *)
Lemma zero_rows_are_accepted :
  ~ (0 < 0) /\ pavPattern (tape []) (always true) 0 1 0 [] = Ret [].
Proof. split; [lia | reflexivity]. Qed.

(** C5, amended.  The script checks nothing and its catalog constants are
    sound.  A run fails exactly when there is no column, with the
    [ValueError] of the largest element of an empty list, whatever the
    number of rows; with at least one column it returns, also when the
    number of rows is zero or negative. *)
Theorem run_fails_iff_no_column
    (rng : nat -> nat) (render : nat -> bool) (fuel : nat) (xNum yNum : Z)
    (layers : list string) :
  5 * yNum <= Z.of_nat fuel ->
  valid shipped /\
  (xNum <= 0 -> pavPattern rng render fuel xNum yNum layers = Raise ValueError) /\
  (1 <= xNum -> exists out, pavPattern rng render fuel xNum yNum layers = Ret out) /\
  (pavPattern rng render fuel xNum yNum layers = Raise ValueError <-> xNum <= 0).
Proof.
  intros Hfuel.
  assert (Hv : valid shipped) by (split; cbn; lia).
  assert (Hbad : xNum <= 0 -> pavPattern rng render fuel xNum yNum layers = Raise ValueError).
  { intros Hx. unfold pavPattern.
    now rewrite (no_column_fails rng render shipped 6 fuel xNum yNum layers eq_refl Hx). }
  assert (Hgood : 1 <= xNum -> exists out, pavPattern rng render fuel xNum yNum layers = Ret out).
  { intros Hx.
    assert (Hf : (max_r shipped - base shipped) * yNum <= base shipped * Z.of_nat fuel)
      by (cbn [shipped max_r base]; lia).
    destruct (run_effect rng render shipped fuel xNum yNum layers 6 Hv eq_refl eq_refl Hx Hf)
      as (s1 & m & finals & s & gap_ps & _ & _ & _ & Hrun & _).
    exists (srfs s). unfold pavPattern. now rewrite Hrun. }
  split; [exact Hv|]. split; [exact Hbad|]. split; [exact Hgood|].
  split; [|exact Hbad].
  intros Hr. destruct (Z.le_gt_cases xNum 0) as [|Hx]; [assumption|].
  destruct Hgood as [out Hout]; [lia|]. congruence.
Qed.

Lemma run_fails_iff_no_column_witness :
  5 * (-2) <= Z.of_nat 0 /\
  pavPattern draws_1_2 third_fails 0 0 (-2) [] = Raise ValueError /\
  exists out, pavPattern draws_1_2 third_fails 0 3 (-2) [] = Ret out.
Proof.
  assert (H : 5 * (-2) <= Z.of_nat 0) by (cbn; lia).
  split; [exact H|].
  split.
  - apply (run_fails_iff_no_column draws_1_2 third_fails 0 0 (-2) [] H). lia.
  - apply (run_fails_iff_no_column draws_1_2 third_fails 0 3 (-2) [] H). lia.
Defined.

(** * More on the catalog *)

(** X1.  The catalog has one entry per key: its keys are distinct, the keys
    present are exactly 1 .. num_buckets, and looking up any other key is the
    [KeyError] of the script.  With at least one bucket the index drawn by
    [randint(1, num_buckets)] is always a key, so the lookup that follows
    the draw finds a height. *)
Theorem catalog_keys (rng : nat -> nat) (c : config) (nb bucket_index : Z) (s : state) :
  NoDup (map fst (bucket_heights c nb)) /\
  (lookup_height (bucket_heights c nb) bucket_index s = Raise KeyError <->
   ~ (1 <= bucket_index <= nb)) /\
  (1 <= nb ->
   exists b h s',
     randint rng 1 nb s = Ret (b, s') /\ 1 <= b <= nb /\
     lookup_height (bucket_heights c nb) b s' = Ret (h, s')).
Proof.
  split; [|split].
  - unfold bucket_heights, range. rewrite map_map. cbn [fst].
    generalize 0%nat. induction (Z.to_nat nb) as [|n IH]; intros a; cbn [seq map];
      constructor; [|apply IH].
    rewrite in_map_iff. intros (j & E & Hj). apply in_seq in Hj. lia.
  - unfold lookup_height. split.
    + intros E Hr. rewrite (lookup_bucket c nb bucket_index Hr) in E. discriminate.
    + intros Hr. destruct (lookup (bucket_heights c nb) bucket_index) as [h|] eqn:E;
        [|reflexivity].
      apply lookup_In, bucket_heights_In in E. tauto.
  - intros Hnb. unfold randint. destruct (Z.ltb_spec nb 1) as [?|_]; [lia|].
    assert (Hb : 1 <= 1 + Z.of_nat (rng (drawn s)) mod (nb - 1 + 1) <= nb).
    { pose proof (Z.mod_pos_bound (Z.of_nat (rng (drawn s))) (nb - 1 + 1)). lia. }
    eexists. eexists. eexists. split; [reflexivity|]. split; [exact Hb|].
    unfold lookup_height. rewrite (lookup_bucket c nb _ Hb). reflexivity.
Qed.

Lemma catalog_keys_witness :
  1 <= 6 /\
  exists b h s',
    randint (tape [4]%nat) 1 6 (boot []) = Ret (b, s') /\ 1 <= b <= 6 /\
    lookup_height (bucket_heights shipped 6) b s' = Ret (h, s').
Proof.
  assert (H : 1 <= 6) by lia.
  split; [exact H|].
  destruct (catalog_keys (tape [4]%nat) shipped 6 7 (boot [])) as (_ & _ & Hdraw).
  exact (Hdraw H).
Defined.

Lemma str_injective (a b : Z) : str a = str b -> a = b.
Proof.
  unfold str. intros E.
  assert (Hn : forall z, Z.to_int z <> Decimal.Pos Decimal.Nil /\
                         Z.to_int z <> Decimal.Neg Decimal.Nil).
  { intros [|p|p]; cbn; split; try discriminate;
      intros [= H]; now apply DecimalPos.Unsigned.to_uint_nonnil in H. }
  apply (f_equal NilZero.int_of_string) in E.
  rewrite !NilZero.isi in E by apply Hn.
  injection E as E. now apply DecimalZ.to_int_inj.
Qed.

Lemma layer_of_injective (a b : Z) : layer_of a = layer_of b -> a = b.
Proof.
  unfold layer_of. cbn. intros [= E]. now apply str_injective.
Qed.

(** X2.  Buckets, layer names and heights go together: with a step that is
    not zero, two buckets of the catalog have the same layer name exactly
    when they have the same height, and exactly when they are the same
    bucket. *)
Theorem layer_iff_height (c : config) (nb i j : Z) :
  bucket_size c <> 0 ->
  1 <= i <= nb -> 1 <= j <= nb ->
  (layer_of i = layer_of j <-> i = j) /\
  (lookup (bucket_heights c nb) i = lookup (bucket_heights c nb) j <-> i = j).
Proof.
  intros Hs Hi Hj. split; split.
  - apply layer_of_injective.
  - now intros ->.
  - rewrite !lookup_bucket by assumption. intros [= E]. nia.
  - now intros ->.
Qed.

Lemma layer_iff_height_witness :
  bucket_size shipped <> 0 /\
  (layer_of 2 = layer_of 5 <-> 2 = 5) /\
  (lookup (bucket_heights shipped 6) 2 = lookup (bucket_heights shipped 6) 5 <-> 2 = 5).
Proof.
  assert (Hs : bucket_size shipped <> 0) by discriminate.
  split; [exact Hs|].
  apply (layer_iff_height shipped 6 2 5 Hs); lia.
Defined.

(** * What each step does, whenever it returns *)

Lemma layer_calls_app (a b : list event) :
  layer_calls (a ++ b) = layer_calls a ++ layer_calls b.
Proof. apply flat_map_app. Qed.

Lemma bind_returns {A B} (m : M A) (f : A -> M B) s b s' :
  bind m f s = Ret (b, s') ->
  exists a s1, m s = Ret (a, s1) /\ f a s1 = Ret (b, s').
Proof.
  unfold bind. destruct (m s) as [[a s1]|e|]; try discriminate.
  intros H. now exists a, s1.
Qed.

Section Steps.

Variable rng : nat -> nat.
Variable render : nat -> bool.

Ltac frame :=
  cbn; rewrite ?panels_app, ?tags_app, ?layer_calls_app; cbn;
  rewrite ?app_nil_r, <- ?app_assoc; cbn; auto; try lia.

Lemma close_step_returns bh i max_height current_y gap s f s' :
  close_step rng render bh i max_height current_y gap s = Ret (f, s') ->
  let srf := handle render (created s) in
  exists p layer_name,
    closes s s' [p] /\
    layer_calls (trace s') = layer_calls (trace s) /\
    p_col p = i /\ p_y0 p = current_y /\ p_srf p = srf /\
    tags (trace s') = tags (trace s) ++
      match srf with Some g => [(g, layer_name)] | None => [] end /\
    (srf <> None -> tag_ok (existing_layers s) p layer_name) /\
    ((exists b h,
        In (b, h) (valid_fits bh gap) /\ p_site p = Fitted b /\
        p_y1 p = current_y + h /\
        f = Continue (current_y + h) (max_height - (current_y + h))) \/
     (valid_fits bh gap = [] /\ p_site p = Fallback /\
      p_y1 p = current_y + gap /\ f = Break current_y gap)).
Proof.
  intros H srf. unfold close_step in H.
  destruct (valid_fits bh gap) as [|d rest] eqn:Ef.
  - revert H. destruct (existing_layers s) as [|l0 ls] eqn:El.
    + run. rewrite El. run. discriminate.
    + assert (Hin : In (nth (rng (drawn s) mod List.length (l0 :: ls)) (l0 :: ls) l0)
                       (existing_layers s)).
      { rewrite El. apply nth_In. apply Nat.mod_upper_bound. discriminate. }
      run. rewrite El. run. fold srf. destruct srf as [g|] eqn:Es; run; intros [= <- <-].
      * exists (Panel Fallback i current_y (current_y + gap) (Some g)).
        eexists. split; [constructor; frame|]. frame.
        repeat (split; [reflexivity|]).
        split; [intros _; rewrite El in Hin; exact Hin|].
        right. auto.
      * exists (Panel Fallback i current_y (current_y + gap) None), ""%string.
        split; [constructor; frame|]. frame.
        repeat (split; [reflexivity|]). split; [congruence|].
        right. auto.
  - assert (Hpick : In (nth (rng (drawn s) mod List.length (d :: rest)) (d :: rest) d)
                       (d :: rest)).
    { apply nth_In. apply Nat.mod_upper_bound. discriminate. }
    destruct (nth (rng (drawn s) mod List.length (d :: rest)) (d :: rest) d)
      as [b h] eqn:Ep.
    revert H. unfold choice at 1. run. cbn in Ep. rewrite Ep.
    run. fold srf. destruct srf as [g|] eqn:Es; run.
    + destruct (Z.abs (gap - h) <? eq_eps) eqn:Elast; run.
      * destruct (existing_layers s) as [|l0 ls] eqn:El; run; [discriminate|].
        intros [= <- <-].
        exists (Panel (Fitted b) i current_y (current_y + h) (Some g)).
        eexists. split; [constructor; frame|]. frame.
        repeat (split; [reflexivity|]). split.
        { intros _. unfold tag_ok. cbn. right.
          apply (nth_In (l0 :: ls)). apply Nat.mod_upper_bound. discriminate. }
        left. exists b, h. auto.
      * intros [= <- <-].
        exists (Panel (Fitted b) i current_y (current_y + h) (Some g)).
        eexists. split; [constructor; frame|]. frame.
        repeat (split; [reflexivity|]). split.
        { intros _. unfold tag_ok. cbn. now left. }
        left. exists b, h. auto.
    + intros [= <- <-].
      exists (Panel (Fitted b) i current_y (current_y + h) None), ""%string.
      split; [constructor; frame|]. frame.
      repeat (split; [reflexivity|]). split; [congruence|].
      left. exists b, h. auto.
Qed.


Lemma residual_guard_returns i current_y gap s u s' :
  residual_guard rng render i current_y gap s = Ret (u, s') ->
  (gap < guard_eps /\ s' = s) \/
  (guard_eps <= gap /\
   let srf := handle render (created s) in
   exists layer_name,
     closes s s' [Panel Residual i current_y (current_y + gap) srf] /\
     layer_calls (trace s') = layer_calls (trace s) /\
     tags (trace s') = tags (trace s) ++
       match srf with Some g => [(g, layer_name)] | None => [] end /\
     In layer_name (existing_layers s)).
Proof.
  unfold residual_guard. destruct (Z.leb_spec guard_eps gap) as [Hg|Hg].
  - intros H. right. split; [assumption|]. revert H.
    destruct (existing_layers s) as [|l0 ls] eqn:El.
    + run. rewrite El. run. discriminate.
    + assert (Hin : In (nth (rng (drawn s) mod List.length (l0 :: ls)) (l0 :: ls) l0)
                       (l0 :: ls)).
      { apply nth_In. apply Nat.mod_upper_bound. discriminate. }
      run. rewrite El. run.
      destruct (handle render (created s)) as [g|] eqn:Es; run; intros [= <- <-];
        (eexists; split; [constructor; frame|]); frame.
  - intros [= <- <-]. now left.
Qed.

Lemma stack_cell_returns nb bh i s u s' :
  stack_cell rng render nb bh i s = Ret (u, s') ->
  let b := 1 + Z.of_nat (rng (drawn s)) mod nb in
  let name := layer_of b in
  let srf := handle render (created s) in
  1 <= b <= nb /\
  exists r y0,
    lookup bh b = Some r /\
    nth_error (y_bases s) i = Some y0 /\
    y_bases s' = set_nth (y_bases s) i (y0 + r) /\
    srfs s' = srfs s ++ [srf] /\
    created s' = S (created s) /\
    panels (trace s') = panels (trace s) ++ [Panel (Stacked b) i y0 (y0 + r) srf] /\
    tags (trace s') = tags (trace s) ++
      match srf with Some g => [(g, name)] | None => [] end /\
    ((mem name (layer_table s) = false /\
      layer_table s' = layer_table s ++ [name] /\
      existing_layers s' = existing_layers s ++ [name] /\
      exists r_color g_color b_color,
        0 <= r_color <= 255 /\ 0 <= g_color <= 255 /\ 0 <= b_color <= 255 /\
        layer_calls (trace s') =
          layer_calls (trace s) ++ [AddLayer name; LayerColor name r_color g_color b_color]) \/
     (mem name (layer_table s) = true /\
      layer_table s' = layer_table s /\
      layer_calls (trace s') = layer_calls (trace s) /\
      existing_layers s' =
        if mem name (existing_layers s) then existing_layers s
        else existing_layers s ++ [name])).
Proof.
  intros H b name srf. unfold stack_cell, randint in H.
  destruct (Z.ltb_spec nb 1) as [Hnb|Hnb]; [discriminate|].
  assert (Hb : 1 <= b <= nb).
  { subst b. pose proof (Z.mod_pos_bound (Z.of_nat (rng (drawn s))) nb). lia. }
  split; [assumption|]. revert H.
  unfold bind at 1. unfold bind at 1. cbn [draw ret].
  replace (1 + Z.of_nat (rng (drawn s)) mod (nb - 1 + 1)) with b
    by (subst b; do 2 f_equal; lia).
  fold name. clearbody b name.
  run. destruct (lookup bh b) as [r|] eqn:El; run; [|discriminate].
  assert (Hcol : forall n : nat, 0 <= 0 + Z.of_nat n mod (255 - 0 + 1) <= 255).
  { intros n. change (255 - 0 + 1) with 256.
    pose proof (Z.mod_pos_bound (Z.of_nat n) 256 eq_refl). lia. }
  destruct (mem name (layer_table s)) eqn:Ek; run.
  - destruct (mem name (existing_layers s)) eqn:Em; run;
      (destruct (nth_error (y_bases s) i) as [y0|] eqn:Ey; run; [|discriminate]);
      assert (Hi : (i <? List.length (y_bases s))%nat = true)
        by (apply Nat.ltb_lt, nth_error_Some; congruence);
      fold srf; destruct srf as [g|]; run; rewrite Hi; run; intros [= <- <-];
      exists r, y0; frame; repeat (split; [reflexivity|]); right; frame.
  - unfold randint. change (255 <? 0) with false. run.
    destruct (nth_error (y_bases s) i) as [y0|] eqn:Ey; run; [|discriminate].
    assert (Hi : (i <? List.length (y_bases s))%nat = true)
      by (apply Nat.ltb_lt, nth_error_Some; congruence).
    fold srf. destruct srf as [g|]; run; rewrite Hi; run; intros [= <- <-];
      exists r, y0; frame; repeat (split; [reflexivity|]); left; frame;
      repeat (split; [reflexivity|]); do 3 eexists;
      repeat (split; [apply Hcol|]); reflexivity.
Qed.

(** The draws of one cell: its bucket index is the oracle's value at the
    cursor, reduced to [1 .. nb]; the cursor moves by one, or by four when
    the layer of the bucket is new to the document and gets a colour. *)
Lemma stack_cell_draws nb bh i s u s' :
  stack_cell rng render nb bh i s = Ret (u, s') ->
  let b := 1 + Z.of_nat (rng (drawn s)) mod (nb - 1 + 1) in
  map p_site (panels (trace s')) = map p_site (panels (trace s)) ++ [Stacked b] /\
  if mem (layer_of b) (layer_table s)
  then layer_table s' = layer_table s /\ drawn s' = (1 + drawn s)%nat
  else layer_table s' = layer_table s ++ [layer_of b] /\ drawn s' = (4 + drawn s)%nat.
Proof.
  intros H b. unfold stack_cell, randint in H.
  destruct (Z.ltb_spec nb 1) as [Hnb|Hnb]; [discriminate|].
  revert H. unfold bind at 1. unfold bind at 1. cbn [draw ret].
  fold b. clearbody b.
  run. destruct (lookup bh b) as [r|] eqn:El; run; [|discriminate].
  destruct (mem (layer_of b) (layer_table s)) eqn:Ek; run.
  - destruct (mem (layer_of b) (existing_layers s)) eqn:Em; run;
      (destruct (nth_error (y_bases s) i) as [y0|] eqn:Ey; run; [|discriminate]);
      assert (Hi : (i <? List.length (y_bases s))%nat = true)
        by (apply Nat.ltb_lt, nth_error_Some; congruence);
      destruct (handle render (created s)) as [g|]; run; rewrite Hi; run;
      intros [= <- <-]; cbn; rewrite ?panels_app, ?map_app; cbn;
      rewrite ?app_nil_r; auto.
  - unfold randint. change (255 <? 0) with false. run.
    destruct (nth_error (y_bases s) i) as [y0|] eqn:Ey; run; [|discriminate].
    assert (Hi : (i <? List.length (y_bases s))%nat = true)
      by (apply Nat.ltb_lt, nth_error_Some; congruence).
    destruct (handle render (created s)) as [g|]; run; rewrite Hi; run;
      intros [= <- <-]; cbn; rewrite ?panels_app, ?map_app; cbn;
      rewrite ?app_nil_r; auto.
Qed.

End Steps.

(** * What the loops keep *)

Section Rules.

Variable rng : nat -> nat.
Variable render : nat -> bool.

Lemma for_each_keeps {A} (Inv : state -> Prop) (l : list A) (body : A -> M unit) :
  (forall x s u s', In x l -> Inv s -> body x s = Ret (u, s') -> Inv s') ->
  forall s u s', Inv s -> for_each l body s = Ret (u, s') -> Inv s'.
Proof.
  induction l as [|x l IH]; intros Hbody s u s' Hs H; cbn in H.
  - injection H as _ E. now subst.
  - apply bind_returns in H. destruct H as (v & s1 & H1 & H2).
    apply (IH (fun y t w t' Hy => Hbody y t w t' (or_intror Hy)) s1 u s'); [|assumption].
    exact (Hbody x s v s1 (or_introl eq_refl) Hs H1).
Qed.

Lemma for_collect_keeps {A B} (Inv : state -> Prop) (l : list A) (body : A -> M B) :
  (forall x s b s', In x l -> Inv s -> body x s = Ret (b, s') -> Inv s') ->
  forall s bs s', Inv s -> for_collect l body s = Ret (bs, s') -> Inv s'.
Proof.
  induction l as [|x l IH]; intros Hbody s bs s' Hs H; cbn in H.
  - injection H as _ E. now subst.
  - apply bind_returns in H. destruct H as (b & s1 & H1 & H2).
    apply bind_returns in H2. destruct H2 as (bs' & s2 & H2 & H3).
    injection H3 as _ E. subst s'.
    apply (IH (fun y t w t' Hy => Hbody y t w t' (or_intror Hy)) s1 bs' s2); [|assumption].
    exact (Hbody x s b s1 (or_introl eq_refl) Hs H1).
Qed.

Section Gap.

Variable Inv : state -> Prop.
Variable Q : nat -> Z -> Prop.
Variable bh : list (Z * Z).
Variable M : Z.

Hypothesis step_keeps :
  forall i cy gap s f s',
    Q i cy -> gap = M - cy -> guard_eps < gap -> Inv s ->
    close_step rng render bh i M cy gap s = Ret (f, s') ->
    Inv s' /\ forall y g, f = Continue y g -> Q i y.

Hypothesis guard_keeps :
  forall i cy gap s u s',
    Q i cy -> gap = M - cy -> guard_eps <= gap -> Inv s ->
    residual_guard rng render i cy gap s = Ret (u, s') -> Inv s'.

Hypothesis start :
  forall i s y0, Inv s -> nth_error (y_bases s) i = Some y0 -> Q i y0.

Lemma while_gap_keeps (fuel : nat) i : forall cy gap s r s',
  Q i cy -> gap = M - cy -> Inv s ->
  while_gap rng render fuel bh i M cy gap s = Ret (r, s') ->
  Inv s' /\ Q i (fst r) /\ snd r = M - fst r.
Proof.
  induction fuel as [|fuel IH]; intros cy gap s r s' Hq Hgap Hs H; cbn [while_gap] in H;
    destruct (Z.ltb_spec guard_eps gap) as [Hg|Hg]; try discriminate;
    try (injection H as <- <-; now auto).
  apply bind_returns in H. destruct H as (f & s1 & H1 & H2).
  destruct (step_keeps i cy gap s f s1 Hq Hgap Hg Hs H1) as [Hs1 Hq1].
  destruct (close_step_returns rng render _ _ _ _ _ _ _ _ H1)
    as (p & name & _ & _ & _ & _ & _ & _ & _ & [(b & h & _ & _ & _ & ->)|(_ & _ & _ & ->)]).
  - apply (IH _ _ _ _ _ (Hq1 _ _ eq_refl) eq_refl Hs1 H2).
  - injection H2 as <- <-. auto.
Qed.

Lemma close_column_keeps (fuel : nat) i s r s' :
  Inv s ->
  close_column rng render fuel bh M i s = Ret (r, s') -> Inv s'.
Proof.
  intros Hs H. unfold close_column in H.
  apply bind_returns in H. destruct H as (y0 & s0 & H0 & H).
  unfold load_y in H0. destruct (nth_error (y_bases s) i) as [y'|] eqn:Ey; [|discriminate].
  injection H0 as E1 E2. subst y' s0.
  apply bind_returns in H. destruct H as ([y g] & s1 & H1 & H).
  apply bind_returns in H. destruct H as (u & s2 & H2 & H3).
  injection H3 as _ E3. subst s2.
  destruct (while_gap_keeps fuel i _ _ _ _ _ (start i s y0 Hs Ey) eq_refl Hs H1)
    as (Hs1 & Hq & Hg). cbn in Hq, Hg.
  destruct (residual_guard_returns rng render _ _ _ _ _ _ H2) as [[_ ->]|[Hge _]];
    [assumption|].
  exact (guard_keeps i y g s1 u s' Hq Hg Hge Hs1 H2).
Qed.

End Gap.

Lemma gap_closer_keeps (Inv : state -> Prop) (Q : nat -> Z -> Prop) (fuel : nat)
    bh xNum s r s' :
  (forall M, max_of (y_bases s) = Some M ->
     (forall i cy gap t f t',
        Q i cy -> gap = M - cy -> guard_eps < gap -> Inv t ->
        close_step rng render bh i M cy gap t = Ret (f, t') ->
        Inv t' /\ forall y g, f = Continue y g -> Q i y) /\
     (forall i cy gap t u t',
        Q i cy -> gap = M - cy -> guard_eps <= gap -> Inv t ->
        residual_guard rng render i cy gap t = Ret (u, t') -> Inv t')) ->
  (forall M, max_of (y_bases s) = Some M ->
     forall i t y0, Inv t -> nth_error (y_bases t) i = Some y0 -> Q i y0) ->
  Inv s ->
  gap_closer rng render fuel bh xNum s = Ret (r, s') ->
  Inv s' /\ max_of (y_bases s) = Some (fst r).
Proof.
  intros Hsteps Hstart Hs H. unfold gap_closer in H.
  apply bind_returns in H. destruct H as (M & s0 & H0 & H).
  unfold max_y_bases in H0. destruct (max_of (y_bases s)) as [m|] eqn:Em; [|discriminate].
  injection H0 as E1 E2. subst m s0.
  apply bind_returns in H. destruct H as (finals & s1 & H1 & H2).
  injection H2 as E3 E4. subst r s1.
  destruct (Hsteps M eq_refl) as [Hstep Hguard].
  specialize (Hstart M eq_refl).
  split; [|reflexivity].
  apply (for_collect_keeps Inv (range xNum) (close_column rng render fuel bh M))
    with (s := s) (bs := finals); [|assumption|assumption].
  intros i t b t' _ Ht Hc.
  exact (close_column_keeps Inv Q bh M Hstep Hguard Hstart fuel i t b t' Ht Hc).
Qed.

Lemma stacker_keeps (Inv : state -> Prop) nb bh xNum yNum s u s' :
  (forall i t v t', (i < Z.to_nat xNum)%nat -> Inv t ->
     stack_cell rng render nb bh i t = Ret (v, t') -> Inv t') ->
  Inv s ->
  stacker rng render nb bh xNum yNum s = Ret (u, s') -> Inv s'.
Proof.
  intros Hcell Hs H. unfold stacker in H.
  apply (for_each_keeps Inv (range yNum)
           (fun _ => for_each (range xNum) (fun i => stack_cell rng render nb bh i)))
    with (s := s) (u := u); [|assumption|assumption].
  intros _ t v t' _ Ht Hrow.
  apply (for_each_keeps Inv (range xNum) (fun i => stack_cell rng render nb bh i))
    with (s := t) (u := v); [|assumption|assumption].
  intros i t1 v1 t1' Hi. apply Hcell. apply in_seq in Hi. lia.
Qed.

(** A run that returns went through its two phases. *)
Lemma run_returns c (fuel : nat) xNum yNum layers r s :
  pavPattern_with rng render c fuel xNum yNum (boot layers) = Ret (r, s) ->
  exists nb s1,
    num_buckets c = Some nb /\
    stacker rng render nb (bucket_heights c nb) xNum yNum
      (State [] (map (fun _ => 0) (range xNum)) [] 0 0 layers []) = Ret (tt, s1) /\
    gap_closer rng render fuel (bucket_heights c nb) xNum s1 = Ret (r, s).
Proof.
  intros H. unfold pavPattern_with in H.
  apply bind_returns in H. destruct H as (u & s0 & H0 & H).
  cbn in H0. injection H0 as _ E0. subst s0.
  destruct (num_buckets c) as [nb|]; [|discriminate].
  apply bind_returns in H. destruct H as ([] & s1 & H1 & H2).
  now exists nb, s1.
Qed.

End Rules.

(** ** Stacking, draw by draw *)

(** C7.  The stacking phase runs row by row and, within a row, column by
    column: the surfaces it requests are, in order, those of columns
    [0 .. xNum-1], [yNum] times over.  The bucket of each one is the value
    the oracle holds at the cell's turn, reduced to [1 .. k] as
    [random.randint(1, k)] does: the buckets of the run are, cell after
    cell, the list [stacked_buckets] reads off the oracle.  Each panel is a
    catalog panel: its height is that of its bucket, and the bucket's layer
    is in the registry afterwards.  The registry has no duplicate and holds
    nothing but layers of drawn buckets.  In each column the panels sit one
    on top of the other from 0, and the column's entry of [y_bases] is the
    top of its pile. *)
Theorem stacker_rows_then_columns
    (rng : nat -> nat) (render : nat -> bool) (c : config) (nb : Z)
    (xNum yNum : Z) (layers : list string) :
  valid c -> num_buckets c = Some nb ->
  let bh := bucket_heights c nb in
  exists s0 s,
    init_locals xNum (boot layers) = Ret (tt, s0) /\
    stacker rng render nb bh xNum yNum s0 = Ret (tt, s) /\
    map p_col (panels (trace s)) = flat_map (fun _ => range xNum) (range yNum) /\
    map p_site (panels (trace s)) =
      map Stacked (stacked_buckets rng nb layers 0 (Z.to_nat yNum * Z.to_nat xNum)) /\
    Forall (fun p => exists b, p_site p = Stacked b /\ 1 <= b <= nb /\
                               lookup bh b = Some (height p) /\
                               In (layer_of b) (existing_layers s))
           (panels (trace s)) /\
    NoDup (existing_layers s) /\
    (forall name, In name (existing_layers s) ->
       exists p b, In p (panels (trace s)) /\ p_site p = Stacked b /\ name = layer_of b) /\
    (forall i, (i < Z.to_nat xNum)%nat ->
       chain 0 (column i (panels (trace s))) /\
       nth i (y_bases s) 0 = top 0 (column i (panels (trace s)))).
Proof.
  intros Hv Hnb bh.
  pose proof (num_buckets_pos c nb Hv Hnb) as Hk.
  assert (Hlook : forall b, 1 <= b <= nb -> lookup bh b <> None).
  { intros b Hb. unfold bh. now rewrite lookup_bucket. }
  destruct (boot_stacked nb bh xNum layers) as [Hinit Hs0].
  destruct (stacker_effect rng render nb bh xNum yNum _ Hk Hlook Hs0)
    as (s & new & Hrun & Hs & Hp & Hcols).
  cbn in Hp. rewrite <- Hp in Hcols.
  eexists. exists s. split; [exact Hinit|]. split; [exact Hrun|].
  split; [exact Hcols|]. split; [|split; [|split; [|split]]].
  - set (Inv := fun t : state =>
                  forall n : nat,
                    map p_site (panels (trace t)) ++
                    map Stacked (stacked_buckets rng nb (layer_table t) (drawn t) n) =
                    map Stacked (stacked_buckets rng nb layers 0
                                   (List.length (panels (trace t)) + n))).
    assert (Hend : Inv s).
    { apply (stacker_keeps rng render Inv nb bh xNum yNum
               (State [] (map (fun _ => 0) (range xNum)) [] 0 0 layers []) tt s);
        [| |exact Hrun].
      - intros i t v t' _ Ht Hcell n.
        apply stack_cell_draws in Hcell. cbv zeta in Hcell.
        destruct Hcell as [Hsites Hcur].
        assert (Hlen : List.length (panels (trace t')) = S (List.length (panels (trace t)))).
        { apply (f_equal (@List.length site)) in Hsites.
          rewrite length_app, !length_map in Hsites. cbn in Hsites. lia. }
        rewrite Hlen, Hsites, <- app_assoc.
        replace (S (List.length (panels (trace t))) + n)%nat
          with (List.length (panels (trace t)) + S n)%nat by lia.
        rewrite <- (Ht (S n)). f_equal. cbn [stacked_buckets map app]. f_equal.
        destruct (mem _ (layer_table t)); destruct Hcur as [-> ->]; reflexivity.
      - intros n. reflexivity. }
    specialize (Hend 0%nat). cbn [stacked_buckets map] in Hend.
    rewrite app_nil_r, Nat.add_0_r in Hend. rewrite Hend.
    rewrite <- (length_map p_col), Hcols, rows_length. unfold range.
    now rewrite !length_seq.
  - eapply Forall_impl; [|exact (st_panels _ _ _ _ Hs)]. cbn. tauto.
  - exact (st_nodup _ _ _ _ Hs).
  - exact (st_registry _ _ _ _ Hs).
  - exact (st_piles _ _ _ _ Hs).
Qed.

Lemma stacker_rows_then_columns_witness :
  valid shipped /\ num_buckets shipped = Some 6 /\
  exists s0 s,
    init_locals 3 (boot []) = Ret (tt, s0) /\
    stacker draws_1_6_3 third_fails 6 (bucket_heights shipped 6) 3 2 s0 = Ret (tt, s) /\
    map p_col (panels (trace s)) = [0; 1; 2; 0; 1; 2]%nat /\
    map p_site (panels (trace s)) =
      map Stacked (stacked_buckets draws_1_6_3 6 [] 0 (Z.to_nat 2 * Z.to_nat 3)).
Proof.
  assert (Hv : valid shipped) by (split; cbn; lia).
  assert (Hnb : num_buckets shipped = Some 6) by reflexivity.
  split; [exact Hv|]. split; [exact Hnb|].
  destruct (stacker_rows_then_columns draws_1_6_3 third_fails shipped 6 3 2 [] Hv Hnb)
    as (s0 & s & H0 & H1 & H2 & H3 & _).
  exists s0, s. split; [exact H0|]. split; [exact H1|]. split; [exact H2 | exact H3].
Defined.

(** * Handles, layers and registry along a run *)

Lemma handle_rank render n g : handle render n = Some g -> g = n.
Proof. unfold handle. destruct (render n); congruence. Qed.

Lemma created_panels_app a b :
  created_panels (a ++ b) = created_panels a ++ created_panels b.
Proof. apply filter_app. Qed.

Lemma drawn_layers_app a b : drawn_layers (a ++ b) = drawn_layers a ++ drawn_layers b.
Proof. apply flat_map_app. Qed.

Lemma first_seen_snoc l x :
  first_seen (l ++ [x]) =
  if mem x (first_seen l) then first_seen l else first_seen l ++ [x].
Proof. unfold first_seen. now rewrite fold_left_app. Qed.

Lemma coloured_snoc added calls name r g b :
  coloured added calls ->
  0 <= r <= 255 -> 0 <= g <= 255 -> 0 <= b <= 255 ->
  coloured (added ++ [name]) (calls ++ [AddLayer name; LayerColor name r g b]).
Proof.
  intros H Hr Hg Hb. revert calls H.
  induction added as [|n added IH]; intros calls H.
  - destruct calls; [cbn; auto 10 | destruct H].
  - destruct calls as [|[n1| | |] [|[|n2 r2 g2 b2| |] calls]]; cbn in H; try contradiction.
    destruct H as (E1 & E2 & H1 & H2 & H3 & H). cbn. auto 10.
Qed.

Lemma tag_ok_mono reg reg' p name :
  incl reg reg' -> tag_ok reg p name -> tag_ok reg' p name.
Proof.
  unfold tag_ok. intros Hi. destruct (p_site p); intuition.
Qed.

Lemma kept_boot render layers nb xNum :
  kept render layers nb (State [] (map (fun _ => 0) (range xNum)) [] 0 0 layers []).
Proof.
  constructor; cbn; try reflexivity.
  - constructor.
  - intros x [].
  - exists []. rewrite app_nil_r. split; [reflexivity|]. split; [constructor|].
    split; [intros ? [] | exact I].
Qed.

Section Kept.

Variable rng : nat -> nat.
Variable render : nat -> bool.
Variable layers : list string.
Variable nb : Z.

Lemma kept_gap_step s s' p name :
  kept render layers nb s ->
  closes s s' [p] ->
  layer_calls (trace s') = layer_calls (trace s) ->
  p_srf p = handle render (created s) ->
  tags (trace s') = tags (trace s) ++
    match handle render (created s) with Some g => [(g, name)] | None => [] end ->
  (handle render (created s) <> None -> tag_ok (existing_layers s) p name) ->
  drawn_layer p = [] ->
  kept render layers nb s'.
Proof.
  intros [Kc Kh Ks Kt Ki Kf Ktab] [C1 C2 C3 C4 C5 C6] Hcalls Hsrf Htags Hok Hdrawn.
  constructor.
  - rewrite C4, C5, length_app, Kc. reflexivity.
  - rewrite C5, map_app, length_app, Kh. cbn [List.length map].
    rewrite seq_app, map_app. cbn. now rewrite Hsrf, Kc.
  - rewrite C6, C5, flat_map_app, Ks. reflexivity.
  - rewrite C5, created_panels_app, Htags, C2. apply Forall2_app; [assumption|].
    cbn. unfold is_created. rewrite Hsrf.
    destruct (handle render (created s)) as [g|] eqn:Eh; constructor; [|constructor].
    split; [exact Hsrf|]. apply Hok. discriminate.
  - now rewrite C2, C3.
  - now rewrite C2, C5, drawn_layers_app, Kf; cbn; rewrite Hdrawn, app_nil_r.
  - rewrite C3, Hcalls. exact Ktab.
Qed.

Lemma kept_close_step bh i M cy gap s f s' :
  kept render layers nb s ->
  close_step rng render bh i M cy gap s = Ret (f, s') ->
  kept render layers nb s'.
Proof.
  intros Hk H.
  destruct (close_step_returns rng render _ _ _ _ _ _ _ _ H)
    as (p & name & Hcl & Hcalls & _ & _ & Hsrf & Htags & Hok & Hsite).
  apply (kept_gap_step s s' p name); try assumption.
  unfold drawn_layer. destruct Hsite as [(b & h & _ & -> & _)|(_ & -> & _)]; reflexivity.
Qed.

Lemma kept_residual_guard i cy gap s u s' :
  kept render layers nb s ->
  residual_guard rng render i cy gap s = Ret (u, s') ->
  kept render layers nb s'.
Proof.
  intros Hk H.
  destruct (residual_guard_returns rng render _ _ _ _ _ _ H)
    as [[_ ->]|(_ & name & Hcl & Hcalls & Htags & Hin)]; [assumption|].
  apply (kept_gap_step s s' _ name Hk Hcl); try assumption; try reflexivity.
  intros _. exact Hin.
Qed.

Lemma kept_stack_cell bh i s u s' :
  kept render layers nb s ->
  stack_cell rng render nb bh i s = Ret (u, s') ->
  kept render layers nb s'.
Proof.
  intros [Kc Kh Ks Kt Ki Kf Ktab] H.
  destruct (stack_cell_returns rng render _ _ _ _ _ _ H)
    as (Hb & r & y0 & _ & _ & _ & Esrfs & Ecr & Epan & Etags & Hlay).
  set (b := 1 + Z.of_nat (rng (drawn s)) mod nb) in *.
  set (name := layer_of b) in *.
  assert (Ereg : existing_layers s' =
                 if mem name (existing_layers s) then existing_layers s
                 else existing_layers s ++ [name]).
  { destruct Hlay as [(Ek & _ & -> & _)|(_ & _ & _ & ->)]; [|reflexivity].
    destruct (mem name (existing_layers s)) eqn:Em; [|reflexivity].
    apply mem_In, Ki, mem_In in Em. congruence. }
  assert (Hgrow : incl (existing_layers s) (existing_layers s')).
  { rewrite Ereg. destruct (mem name (existing_layers s));
      [apply incl_refl | apply incl_appl, incl_refl]. }
  constructor.
  - rewrite Ecr, Epan, length_app, Kc. cbn. lia.
  - rewrite Epan, map_app, length_app, Kh. cbn [List.length map].
    rewrite seq_app, map_app. cbn. now rewrite Kc.
  - rewrite Esrfs, Epan, flat_map_app, Ks. reflexivity.
  - rewrite Epan, created_panels_app, Etags. apply Forall2_app.
    + eapply Forall2_impl; [|exact Kt]. cbn. intros p t [E Hok].
      split; [assumption | now apply (tag_ok_mono (existing_layers s))].
    + cbn. unfold is_created. cbn.
      destruct (handle render (created s)) as [g|]; constructor; [|constructor].
      split; reflexivity.
  - destruct Hlay as [(_ & -> & -> & _)|(Ek & -> & _ & ->)].
    + apply incl_app; [now apply incl_appl | apply incl_appr, incl_refl].
    + destruct (mem name (existing_layers s)); [assumption|].
      apply incl_app; [assumption|]. intros x [<-|[]]. now apply mem_In.
  - rewrite Epan, drawn_layers_app. cbn. fold name.
    now rewrite first_seen_snoc, <- Kf.
  - destruct Ktab as (added & Etab & Hnd & Hadd & Hcol).
    destruct Hlay as [(Ek & -> & _ & rc & gc & bc & Hr & Hg & Hbl & ->)|(_ & -> & -> & _)].
    + assert (Hfresh : ~ In name (layer_table s)).
      { intros Hin. apply mem_In in Hin. congruence. }
      exists (added ++ [name]). rewrite Etab, app_assoc. split; [reflexivity|].
      rewrite Etab in Hfresh. split; [|split].
      * apply NoDup_app; [assumption | repeat constructor; intros [] |].
        intros x Hx [<-|[]]. apply Hfresh, in_or_app. now right.
      * intros n Hn. apply in_app_or in Hn. destruct Hn as [Hn|[<-|[]]]; [now apply Hadd|].
        split; [|now exists b]. intros Hin. apply Hfresh, in_or_app. now left.
      * now apply coloured_snoc.
    + now exists added.
Qed.

(** Every run that returns ends in a state that kept all of this. *)
Lemma run_kept c (fuel : nat) xNum yNum r s :
  num_buckets c = Some nb ->
  pavPattern_with rng render c fuel xNum yNum (boot layers) = Ret (r, s) ->
  kept render layers nb s.
Proof.
  intros Hnb H. apply run_returns in H. destruct H as (nb' & s1 & Hnb' & H1 & H2).
  rewrite Hnb in Hnb'. injection Hnb' as <-.
  assert (Hs1 : kept render layers nb s1).
  { apply (stacker_keeps rng render (kept render layers nb) nb (bucket_heights c nb)
             xNum yNum _ tt s1
             (fun i t v t' _ => kept_stack_cell (bucket_heights c nb) i t v t')
             (kept_boot render layers nb xNum) H1). }
  apply (gap_closer_keeps rng render (kept render layers nb) (fun _ _ => True)
           fuel (bucket_heights c nb) xNum s1 r s); try assumption; [|auto].
  intros M _. split.
  - intros i cy gap t f t' _ _ _ Ht Hc. split; [|auto].
    exact (kept_close_step (bucket_heights c nb) i M cy gap t f t' Ht Hc).
  - intros i cy gap t u t' _ _ _ Ht Hc. exact (kept_residual_guard i cy gap t u t' Ht Hc).
Qed.

End Kept.

Lemma handles_filter render (ps : list panel) : forall a,
  map p_srf ps = map (handle render) (seq a (List.length ps)) ->
  handles ps = filter render (seq a (List.length ps)).
Proof.
  induction ps as [|p ps IH]; intros a H; [reflexivity|].
  cbn in H. injection H as Hp Hps. cbn [List.length seq filter handles flat_map].
  fold (handles ps). rewrite (IH _ Hps). unfold created_handle. rewrite Hp.
  unfold handle. destruct (render a); reflexivity.
Qed.

Lemma recorded_handles (ps : list panel) :
  flat_map (fun srf : option nat => match srf with Some g => [g] | None => [] end)
           (flat_map recorded ps) = handles ps.
Proof.
  induction ps as [|p ps IH]; [reflexivity|].
  cbn [flat_map handles]. fold (handles ps). rewrite flat_map_app, IH. f_equal.
  unfold recorded, created_handle. destruct (p_site p), (p_srf p); reflexivity.
Qed.

(** X3.  Layer assignments go one by one with the created surfaces: in every
    run the k-th [rs.ObjectLayer] call is for the k-th surface that was
    created, so a surface that was not created gets no layer and a created
    one gets exactly one.  The layer is the bucket's own for a stacked
    panel, the bucket's own or a registered one for a catalog fit, a
    registered one for a filler; and the layer of every stacked panel exists
    in the document. *)
Theorem layers_assigned_one_by_one
    (rng : nat -> nat) (render : nat -> bool) (c : config) (nb : Z)
    (fuel : nat) (xNum yNum : Z) (layers : list string) :
  valid c -> guard_eps < base c -> num_buckets c = Some nb ->
  1 <= xNum ->
  (max_r c - base c) * yNum <= base c * Z.of_nat fuel ->
  exists r s,
    pavPattern_with rng render c fuel xNum yNum (boot layers) = Ret (r, s) /\
    Forall2 (fun p t => p_srf p = Some (fst t) /\
                        tag_ok (existing_layers s) p (snd t))
            (created_panels (panels (trace s))) (tags (trace s)) /\
    (forall p b, In p (panels (trace s)) -> p_site p = Stacked b ->
       In (layer_of b) (layer_table s)).
Proof.
  intros Hv Heps Hnb Hx Hfuel.
  destruct (run_effect rng render c fuel xNum yNum layers nb Hv Heps Hnb Hx Hfuel)
    as (s1 & m & finals & s & gap_ps & Hs1 & _ & _ & Hrun & Hcl & _ & HG & _).
  exists (m, finals), s. split; [assumption|].
  pose proof (run_kept rng render layers nb c fuel xNum yNum _ _ Hnb Hrun) as Hk.
  split; [exact (k_tags _ _ _ _ Hk)|].
  intros p b Hp Hsite. rewrite (cl_panels _ _ _ Hcl) in Hp.
  apply in_app_or in Hp. destruct Hp as [Hp|Hp].
  - pose proof (st_panels _ _ _ _ Hs1) as Hall. rewrite Forall_forall in Hall.
    destruct (Hall p Hp) as (_ & b' & Hsite' & _ & _ & Hin).
    rewrite Hsite in Hsite'. injection Hsite' as <-.
    rewrite (cl_table _ _ _ Hcl). now apply (st_incl _ _ _ _ Hs1).
  - rewrite Forall_forall in HG. destruct (HG p Hp) as [[_ Hgp] _].
    rewrite Hsite in Hgp. destruct Hgp.
Qed.

Lemma layers_assigned_one_by_one_witness :
  valid shipped /\ guard_eps < base shipped /\ num_buckets shipped = Some 6 /\
  exists r s,
    pavPattern_with draws_1_2 third_fails shipped 10 2 1 (boot []) = Ret (r, s) /\
    List.length (created_panels (panels (trace s))) = List.length (tags (trace s)).
Proof.
  assert (Hv : valid shipped) by (split; cbn; lia).
  assert (Heps : guard_eps < base shipped) by reflexivity.
  assert (Hnb : num_buckets shipped = Some 6) by reflexivity.
  split; [exact Hv|]. split; [exact Heps|]. split; [exact Hnb|].
  destruct (layers_assigned_one_by_one draws_1_2 third_fails shipped 6 10 2 1 []
              Hv Heps Hnb) as (r & s & Hrun & Hall & _); [lia | cbn; lia |].
  exists r, s. split; [exact Hrun | exact (Forall2_length Hall)].
Defined.

(** X4.  Every created surface is returned exactly once.  The renderer is
    taken to hand out a fresh handle at each successful request, here the
    rank of the request; the handles created in a run are then the ranks at
    which the renderer succeeded, in order, and the list the script returns,
    its nulls left out, holds each of them once, in that order. *)
Theorem created_surfaces_returned_once
    (rng : nat -> nat) (render : nat -> bool) (c : config) (nb : Z)
    (fuel : nat) (xNum yNum : Z) (layers : list string) :
  valid c -> guard_eps < base c -> num_buckets c = Some nb ->
  1 <= xNum ->
  (max_r c - base c) * yNum <= base c * Z.of_nat fuel ->
  exists r s,
    pavPattern_with rng render c fuel xNum yNum (boot layers) = Ret (r, s) /\
    map p_srf (panels (trace s)) =
      map (handle render) (seq 0 (List.length (panels (trace s)))) /\
    handles (panels (trace s)) = filter render (seq 0 (List.length (panels (trace s)))) /\
    flat_map (fun srf : option nat => match srf with Some g => [g] | None => [] end)
             (srfs s) = handles (panels (trace s)) /\
    NoDup (handles (panels (trace s))).
Proof.
  intros Hv Heps Hnb Hx Hfuel.
  destruct (run_effect rng render c fuel xNum yNum layers nb Hv Heps Hnb Hx Hfuel)
    as (s1 & m & finals & s & gap_ps & _ & _ & _ & Hrun & _).
  exists (m, finals), s. split; [assumption|].
  pose proof (run_kept rng render layers nb c fuel xNum yNum _ _ Hnb Hrun) as Hk.
  pose proof (handles_filter render _ 0%nat (k_handles _ _ _ _ Hk)) as Hh.
  split; [exact (k_handles _ _ _ _ Hk)|]. split; [exact Hh|]. split.
  - rewrite (k_srfs _ _ _ _ Hk). apply recorded_handles.
  - rewrite Hh. apply NoDup_filter, seq_NoDup.
Qed.

Lemma created_surfaces_returned_once_witness :
  valid shipped /\ guard_eps < base shipped /\ num_buckets shipped = Some 6 /\
  exists r s,
    pavPattern_with draws_1_2 third_fails shipped 10 2 1 (boot []) = Ret (r, s) /\
    NoDup (handles (panels (trace s))).
Proof.
  assert (Hv : valid shipped) by (split; cbn; lia).
  assert (Heps : guard_eps < base shipped) by reflexivity.
  assert (Hnb : num_buckets shipped = Some 6) by reflexivity.
  split; [exact Hv|]. split; [exact Heps|]. split; [exact Hnb|].
  destruct (created_surfaces_returned_once draws_1_2 third_fails shipped 6 10 2 1 []
              Hv Heps Hnb) as (r & s & Hrun & _ & _ & _ & Hnd); [lia | cbn; lia |].
  exists r, s. split; [exact Hrun | exact Hnd].
Defined.

(** X5.  What a run does to the layers of the document: it removes and
    reorders none, it adds layers of catalog buckets only, never one the
    document already has (so a layer table without duplicates stays so), and
    each layer it adds gets its colour right away, once, with components in
    0..255.  These are all the layer calls of the run: a layer the document
    had before is never added again nor recoloured. *)
Theorem document_layers
    (rng : nat -> nat) (render : nat -> bool) (c : config) (nb : Z)
    (fuel : nat) (xNum yNum : Z) (layers : list string) :
  valid c -> guard_eps < base c -> num_buckets c = Some nb ->
  1 <= xNum ->
  (max_r c - base c) * yNum <= base c * Z.of_nat fuel ->
  exists r s added,
    pavPattern_with rng render c fuel xNum yNum (boot layers) = Ret (r, s) /\
    layer_table s = layers ++ added /\
    NoDup added /\
    (forall n, In n added ->
       ~ In n layers /\ exists b, 1 <= b <= nb /\ n = layer_of b) /\
    coloured added (layer_calls (trace s)) /\
    (NoDup layers -> NoDup (layer_table s)).
Proof.
  intros Hv Heps Hnb Hx Hfuel.
  destruct (run_effect rng render c fuel xNum yNum layers nb Hv Heps Hnb Hx Hfuel)
    as (s1 & m & finals & s & gap_ps & _ & _ & _ & Hrun & _).
  pose proof (run_kept rng render layers nb c fuel xNum yNum _ _ Hnb Hrun) as Hk.
  destruct (k_table _ _ _ _ Hk) as (added & Etab & Hnd & Hadd & Hcol).
  exists (m, finals), s, added. repeat (split; [assumption|]).
  intros Hl. rewrite Etab. apply NoDup_app; [assumption | assumption |].
  intros x Hx' Hin. now apply (Hadd x Hin).
Qed.

Lemma document_layers_witness :
  valid shipped /\ guard_eps < base shipped /\ num_buckets shipped = Some 6 /\
  exists r s added,
    pavPattern_with draws_1_6_3 (always true) shipped 10 2 1
      (boot ["Default"; "Height_Group_6"]%string) = Ret (r, s) /\
    layer_table s = ["Default"%string; "Height_Group_6"%string] ++ added /\
    coloured added (layer_calls (trace s)).
Proof.
  assert (Hv : valid shipped) by (split; cbn; lia).
  assert (Heps : guard_eps < base shipped) by reflexivity.
  assert (Hnb : num_buckets shipped = Some 6) by reflexivity.
  split; [exact Hv|]. split; [exact Heps|]. split; [exact Hnb|].
  destruct (document_layers draws_1_6_3 (always true) shipped 6 10 2 1
              ["Default"; "Height_Group_6"]%string Hv Heps Hnb)
    as (r & s & added & Hrun & Etab & _ & _ & Hcol & _); [lia | cbn; lia |].
  exists r, s, added. split; [exact Hrun|]. split; [exact Etab | exact Hcol].
Defined.

(** X6.  The registry after a run lists the layers of the buckets drawn
    while stacking, each once, in the order in which they were first drawn;
    this is the list [random.choice] reads.  Every layer in it exists in the
    document. *)
Theorem registry_first_seen
    (rng : nat -> nat) (render : nat -> bool) (c : config) (nb : Z)
    (fuel : nat) (xNum yNum : Z) (layers : list string) :
  valid c -> guard_eps < base c -> num_buckets c = Some nb ->
  1 <= xNum ->
  (max_r c - base c) * yNum <= base c * Z.of_nat fuel ->
  exists r s,
    pavPattern_with rng render c fuel xNum yNum (boot layers) = Ret (r, s) /\
    existing_layers s = first_seen (drawn_layers (panels (trace s))) /\
    incl (existing_layers s) (layer_table s).
Proof.
  intros Hv Heps Hnb Hx Hfuel.
  destruct (run_effect rng render c fuel xNum yNum layers nb Hv Heps Hnb Hx Hfuel)
    as (s1 & m & finals & s & gap_ps & _ & _ & _ & Hrun & _).
  pose proof (run_kept rng render layers nb c fuel xNum yNum _ _ Hnb Hrun) as Hk.
  exists (m, finals), s. split; [assumption|].
  split; [exact (k_first _ _ _ _ Hk) | exact (k_incl _ _ _ _ Hk)].
Qed.

Lemma registry_first_seen_witness :
  valid shipped /\ guard_eps < base shipped /\ num_buckets shipped = Some 6 /\
  exists r s,
    pavPattern_with draws_1_6_3 (always true) shipped 10 2 1 (boot []) = Ret (r, s) /\
    existing_layers s = first_seen (drawn_layers (panels (trace s))).
Proof.
  assert (Hv : valid shipped) by (split; cbn; lia).
  assert (Heps : guard_eps < base shipped) by reflexivity.
  assert (Hnb : num_buckets shipped = Some 6) by reflexivity.
  split; [exact Hv|]. split; [exact Heps|]. split; [exact Hnb|].
  destruct (registry_first_seen draws_1_6_3 (always true) shipped 6 10 2 1 []
              Hv Heps Hnb) as (r & s & Hrun & Hf & _); [lia | cbn; lia |].
  exists r, s. split; [exact Hrun | exact Hf].
Defined.

(** * Where the panels are *)

Lemma set_nth_nth_error_same l i v :
  (i < List.length l)%nat -> nth_error (set_nth l i v) i = Some v.
Proof.
  revert i. induction l as [|x l IH]; intros [|i] Hi; cbn in *; try lia; auto.
  apply IH. lia.
Qed.

Lemma set_nth_nth_error_other l i j v :
  i <> j -> nth_error (set_nth l i v) j = nth_error l j.
Proof.
  revert i j. induction l as [|x l IH]; intros [|i] [|j] Hij; cbn; try congruence; auto.
Qed.

Lemma set_nth_Forall (P : Z -> Prop) l i v :
  Forall P l -> P v -> Forall P (set_nth l i v).
Proof.
  intros Hl Hv. revert i. induction Hl as [|x l Hx Hl IH]; intros [|i]; cbn;
    constructor; auto.
Qed.

Section Spans.

Variable rng : nat -> nat.
Variable render : nat -> bool.
Variable bh : list (Z * Z).
Hypothesis sizes_positive : forall b h, In (b, h) bh -> 0 < h.

Lemma piled_stack_cell nb i s u s' :
  piled s ->
  stack_cell rng render nb bh i s = Ret (u, s') ->
  piled s'.
Proof.
  intros [Hy Hp] H.
  destruct (stack_cell_returns rng render _ _ _ _ _ _ H)
    as (_ & r & y0 & El & Ey & Eys & _ & _ & Epan & _).
  pose proof (sizes_positive _ _ (lookup_In _ _ _ El)) as Hr.
  assert (Hy0 : 0 <= y0).
  { rewrite Forall_forall in Hy. apply Hy. eapply nth_error_In, Ey. }
  assert (Hi : (i < List.length (y_bases s))%nat) by (apply nth_error_Some; congruence).
  split.
  - rewrite Eys. apply set_nth_Forall; [assumption | lia].
  - rewrite Epan, Eys. apply Forall_app. split.
    + eapply Forall_impl; [|exact Hp]. cbn. intros p (H1 & H2 & y & Hn & Hle).
      split; [assumption|]. split; [assumption|].
      destruct (Nat.eq_dec i (p_col p)) as [E|E].
      * exists (y0 + r). rewrite <- E, set_nth_nth_error_same by assumption.
        split; [reflexivity|]. rewrite <- E in Hn. rewrite Ey in Hn.
        injection Hn as <-. lia.
      * exists y. now rewrite set_nth_nth_error_other.
    + constructor; [|constructor]. cbn. split; [lia|]. split; [reflexivity|].
      exists (y0 + r). rewrite set_nth_nth_error_same by assumption.
      split; [reflexivity | lia].
Qed.

Lemma laid_close_step M i cy gap s f s' :
  0 <= cy -> gap = M - cy -> guard_eps < gap ->
  laid M s ->
  close_step rng render bh i M cy gap s = Ret (f, s') ->
  laid M s' /\ forall y g, f = Continue y g -> 0 <= y.
Proof.
  intros Hcy Hgap Hg [Hy Hp] H.
  destruct (close_step_returns rng render _ _ _ _ _ _ _ _ H)
    as (p & name & Hcl & _ & _ & Hy0 & _ & _ & _ & Hsite).
  unfold laid. rewrite (cl_y_bases _ _ _ Hcl), (cl_panels _ _ _ Hcl).
  unfold guard_eps in Hg.
  destruct Hsite as [(b & h & Hin & Hs & Hy1 & ->)|(_ & Hs & Hy1 & ->)].
  - apply valid_fits_In in Hin. destruct Hin as [Hin Hle].
    pose proof (sizes_positive _ _ Hin) as Hh. split.
    + split; [assumption|]. apply Forall_app. split; [assumption|].
      constructor; [|constructor]. unfold within, is_filler.
      rewrite Hy0, Hy1, Hs. split; [lia|]. split; [lia | discriminate].
    + intros y g [= <- _]. lia.
  - split; [|discriminate]. split; [assumption|].
    apply Forall_app. split; [assumption|].
    constructor; [|constructor]. unfold within. rewrite Hy0, Hy1.
    split; [lia|]. split; [unfold eq_eps; lia | intros _; lia].
Qed.

Lemma laid_residual_guard M i cy gap s u s' :
  0 <= cy -> gap = M - cy -> guard_eps <= gap ->
  laid M s ->
  residual_guard rng render i cy gap s = Ret (u, s') ->
  laid M s'.
Proof.
  intros Hcy Hgap Hg [Hy Hp] H.
  destruct (residual_guard_returns rng render _ _ _ _ _ _ H)
    as [[_ ->]|(_ & name & Hcl & _)]; [now split|].
  unfold laid. rewrite (cl_y_bases _ _ _ Hcl), (cl_panels _ _ _ Hcl).
  split; [assumption|]. apply Forall_app. split; [assumption|].
  constructor; [|constructor]. unfold within, guard_eps, eq_eps in *. cbn.
  split; [lia|]. split; [lia | intros _; lia].
Qed.

Lemma piled_laid s M :
  piled s -> max_of (y_bases s) = Some M -> laid M s.
Proof.
  intros [Hy Hp] Hm. destruct (max_of_spec _ _ Hm) as [_ Hmax].
  split; [assumption|]. eapply Forall_impl; [|exact Hp]. cbn.
  intros p (H1 & H2 & y & Hn & Hle). apply nth_error_In, Hmax in Hn.
  unfold within, eq_eps. rewrite H2. split; [assumption|]. split; [lia | discriminate].
Qed.

Lemma run_laid nb (fuel : nat) xNum yNum layers s1 r s :
  stacker rng render nb bh xNum yNum
    (State [] (map (fun _ => 0) (range xNum)) [] 0 0 layers []) = Ret (tt, s1) ->
  gap_closer rng render fuel bh xNum s1 = Ret (r, s) ->
  laid (fst r) s.
Proof.
  intros H1 H2.
  assert (Hs1 : piled s1).
  { eapply (stacker_keeps rng render piled nb bh xNum yNum);
      [intros i t v t' _; apply piled_stack_cell | | exact H1].
    split; cbn; [|constructor]. apply Forall_forall. intros y Hy.
    apply in_map_iff in Hy. destruct Hy as (_ & <- & _). lia. }
  destruct (max_of (y_bases s1)) as [M|] eqn:Em.
  2:{ unfold gap_closer, bind, max_y_bases in H2. rewrite Em in H2. discriminate. }
  destruct (gap_closer_keeps rng render (laid M) (fun _ y => 0 <= y) fuel bh xNum s1 r s)
    as [Hl Hm]; try assumption.
  - intros M' HM'. rewrite Em in HM'. injection HM' as <-. split.
    + intros i cy gap t f t'. apply laid_close_step.
    + intros i cy gap t u t'. apply laid_residual_guard.
  - intros M' _ i t y0 [Hy _] Hn. rewrite Forall_forall in Hy.
    apply Hy. eapply nth_error_In, Hn.
  - now apply piled_laid.
  - rewrite Em in Hm. injection Hm as ->. exact Hl.
Qed.

End Spans.

(** X7.  Every panel a run requests lies within the layout: it starts at 0
    or above, its height is positive, it ends no more than 1e-6 above the
    common top [max_height], and a filler ends exactly on it. *)
Theorem panels_within_layout
    (rng : nat -> nat) (render : nat -> bool) (c : config) (nb : Z)
    (fuel : nat) (xNum yNum : Z) (layers : list string) :
  valid c -> guard_eps < base c -> num_buckets c = Some nb ->
  1 <= xNum ->
  (max_r c - base c) * yNum <= base c * Z.of_nat fuel ->
  exists max_height finals s,
    pavPattern_with rng render c fuel xNum yNum (boot layers) =
      Ret ((max_height, finals), s) /\
    forall p, In p (panels (trace s)) ->
      0 <= p_y0 p < p_y1 p /\
      p_y1 p <= max_height + eq_eps /\
      (is_filler p = true -> p_y1 p = max_height).
Proof.
  intros Hv Heps Hnb Hx Hfuel.
  destruct (run_effect rng render c fuel xNum yNum layers nb Hv Heps Hnb Hx Hfuel)
    as (s1 & m & finals & s & gap_ps & _ & _ & _ & Hrun & _).
  exists m, finals, s. split; [assumption|].
  destruct (run_returns rng render _ _ _ _ _ _ _ Hrun) as (nb' & s1' & Hnb' & H1 & H2).
  rewrite Hnb in Hnb'. injection Hnb' as <-.
  assert (Hpos : forall b h, In (b, h) (bucket_heights c nb) -> 0 < h).
  { intros b h Hin. pose proof (bucket_bounds c nb b h Hv Hnb Hin).
    unfold guard_eps in Heps. lia. }
  destruct (run_laid rng render _ Hpos nb fuel xNum yNum layers s1' _ s H1 H2) as [_ Hl].
  rewrite Forall_forall in Hl. exact Hl.
Qed.

Lemma panels_within_layout_witness :
  valid step_03 /\ guard_eps < base step_03 /\ num_buckets step_03 = Some 9 /\
  exists max_height finals s,
    pavPattern_with draws_1_2 (always true) step_03 10 2 1 (boot []) =
      Ret ((max_height, finals), s) /\
    forall p, In p (panels (trace s)) -> 0 <= p_y0 p < p_y1 p.
Proof.
  assert (Hv : valid step_03) by (split; cbn; lia).
  assert (Heps : guard_eps < base step_03) by reflexivity.
  assert (Hnb : num_buckets step_03 = Some 9) by reflexivity.
  split; [exact Hv|]. split; [exact Heps|]. split; [exact Hnb|].
  destruct (panels_within_layout draws_1_2 (always true) step_03 9 10 2 1 []
              Hv Heps Hnb) as (m & finals & s & Hrun & Hall); [lia | cbn; lia |].
  exists m, finals, s. split; [exact Hrun|]. intros p Hp. now apply Hall.
Defined.

(** * The gap loop at its edges *)

(** X8.  A final tile ends its column: when the size picked for a gap above
    the guard equals the gap within 1e-6, the column gets that one catalog
    panel and nothing more, neither another pass of the loop nor a filler
    from the guard after it. *)
Theorem final_tile_ends_column
    (rng : nat -> nat) (render : nat -> bool) (fuel : nat) (bh : list (Z * Z))
    (max_height : Z) (i : nat) (s : state) (y0 b h : Z) :
  nth_error (y_bases s) i = Some y0 ->
  guard_eps < max_height - y0 ->
  existing_layers s <> [] ->
  nth_error (valid_fits bh (max_height - y0))
    (rng (drawn s) mod List.length (valid_fits bh (max_height - y0))) = Some (b, h) ->
  Z.abs (max_height - y0 - h) < eq_eps ->
  exists s',
    close_column rng render (S fuel) bh max_height i s =
      Ret ((y0 + h, max_height - (y0 + h)), s') /\
    closes s s' [Panel (Fitted b) i y0 (y0 + h) (handle render (created s))].
Proof.
  intros Hy Hg Hreg Hpick Hlast.
  assert (Hne : valid_fits bh (max_height - y0) <> []).
  { intros E. rewrite E in Hpick. now destruct (rng (drawn s) mod _)%nat. }
  destruct (close_step_fit rng render bh i max_height y0 (max_height - y0) s Hne Hreg)
    as (b' & h' & layer & s' & Hpick' & _ & Hrun & Hcl & _).
  rewrite Hpick in Hpick'. injection Hpick' as <- <-.
  exists s'. split; [|exact Hcl].
  unfold close_column, bind at 1, load_y. rewrite Hy. cbn [while_gap].
  destruct (Z.ltb_spec guard_eps (max_height - y0)) as [_|?]; [|lia].
  unfold bind at 1. unfold bind at 1. rewrite Hrun.
  unfold guard_eps, eq_eps in *.
  rewrite while_gap_idle by (unfold guard_eps; lia).
  unfold bind. rewrite residual_guard_idle by (unfold guard_eps; lia). reflexivity.
Qed.

Lemma final_tile_ends_column_witness :
  exists s',
    close_column (tape [1]%nat) third_fails 1 (bucket_heights shipped 6) 3000000 0
      (State [] [2000000; 3000000] ["Height_Group_4"%string] 0 0 [] []) =
      Ret ((2000000 + 1000000, 3000000 - (2000000 + 1000000)), s') /\
    closes (State [] [2000000; 3000000] ["Height_Group_4"%string] 0 0 [] []) s'
      [Panel (Fitted 2) 0 2000000 (2000000 + 1000000) (handle third_fails 0)].
Proof.
  apply (final_tile_ends_column (tape [1]%nat) third_fails 0 (bucket_heights shipped 6)
           3000000 0 (State [] [2000000; 3000000] ["Height_Group_4"%string] 0 0 [] [])
           2000000 2 1000000).
  - reflexivity.
  - reflexivity.
  - discriminate.
  - reflexivity.
  - reflexivity.
Defined.

(** X9.  A column whose gap is below 0.001 is left as it is: the loop is not
    entered, the guard after it does not fire, nothing is requested and no
    draw is made; the state is the one the column was reached in.  So a gap
    below 0.001 stays open, whatever the catalog and the registry, the empty
    one included. *)
Theorem small_gap_left_open
    (rng : nat -> nat) (render : nat -> bool) (fuel : nat) (bh : list (Z * Z))
    (max_height : Z) (i : nat) (s : state) (y0 : Z) :
  nth_error (y_bases s) i = Some y0 ->
  max_height - y0 < guard_eps ->
  close_column rng render fuel bh max_height i s = Ret ((y0, max_height - y0), s).
Proof.
  intros Hy Hg. unfold close_column, bind at 1, load_y. rewrite Hy.
  unfold bind at 1. rewrite while_gap_idle by lia.
  unfold bind. now rewrite residual_guard_idle.
Qed.

Lemma small_gap_left_open_witness :
  close_column (tape []) (always true) 0 (bucket_heights shipped 6) 3000000 0
    (State [] [2999500; 3000000] [] 0 0 [] []) =
    Ret ((2999500, 3000000 - 2999500), State [] [2999500; 3000000] [] 0 0 [] []).
Proof.
  apply (small_gap_left_open (tape []) (always true) 0 (bucket_heights shipped 6) 3000000 0
           (State [] [2999500; 3000000] [] 0 0 [] []) 2999500 eq_refl).
  reflexivity.
Defined.

(** X10.  In a state whose registry is empty a random layer cannot be
    chosen, and the step stops with the [IndexError] of [random.choice]: the
    fallback branch before any surface is requested, the guard after the
    loop likewise, and the catalog-fit branch when the tile is a final one
    and its surface was created. *)
Theorem empty_registry_raises
    (rng : nat -> nat) (render : nat -> bool) (bh : list (Z * Z)) (i : nat)
    (max_height current_y gap : Z) (s : state) :
  existing_layers s = [] ->
  (valid_fits bh gap = [] ->
   close_step rng render bh i max_height current_y gap s = Raise IndexError) /\
  (guard_eps <= gap ->
   residual_guard rng render i current_y gap s = Raise IndexError) /\
  (forall b h,
     nth_error (valid_fits bh gap)
       (rng (drawn s) mod List.length (valid_fits bh gap)) = Some (b, h) ->
     Z.abs (gap - h) < eq_eps -> render (created s) = true ->
     close_step rng render bh i max_height current_y gap s = Raise IndexError).
Proof.
  intros El. split; [|split].
  - intros Ef. unfold close_step. rewrite Ef. run. now rewrite El.
  - intros Hg. unfold residual_guard.
    destruct (Z.leb_spec guard_eps gap) as [_|?]; [|lia]. run. now rewrite El.
  - intros b h Hpick Hlast Hr. unfold close_step.
    destruct (valid_fits bh gap) as [|d rest] eqn:Ef.
    { now destruct (rng (drawn s) mod _)%nat. }
    apply (nth_error_nth _ _ d) in Hpick.
    unfold choice at 1. run. cbn in Hpick. rewrite Hpick. run.
    unfold handle. rewrite Hr. run.
    destruct (Z.ltb_spec (Z.abs (gap - h)) eq_eps) as [_|?]; [|lia].
    run. now rewrite El.
Qed.

Lemma empty_registry_raises_witness :
  existing_layers (boot []) = [] /\
  close_step (tape []) (always true) (bucket_heights shipped 6) 0 3000000 2700000 300000
    (boot []) = Raise IndexError /\
  close_step (tape []) (always true) (bucket_heights shipped 6) 0 3000000 2500000 500000
    (boot []) = Raise IndexError.
Proof.
  assert (El : existing_layers (boot []) = []) by reflexivity.
  split; [exact El|].
  destruct (empty_registry_raises (tape []) (always true) (bucket_heights shipped 6) 0
              3000000 2700000 300000 (boot []) El) as (H1 & _ & _).
  destruct (empty_registry_raises (tape []) (always true) (bucket_heights shipped 6) 0
              3000000 2500000 500000 (boot []) El) as (_ & _ & H3).
  split; [apply H1; reflexivity|].
  apply (H3 1 500000); reflexivity.
Defined.

(** * Heights and the returned list *)

(** X11.  After [yNum] rows every column stands between [yNum] smallest and
    [yNum] largest catalog sizes, [max_height] is the height of one of the
    columns and no column is higher; [y_bases] keeps these stacked heights
    to the end, the gap-closing phase working on a copy in [current_y]. *)
Theorem stacked_heights_between
    (rng : nat -> nat) (render : nat -> bool) (c : config) (fuel : nat)
    (xNum yNum : Z) (layers : list string) (nb : Z) :
  valid c -> guard_eps < base c ->
  num_buckets c = Some nb ->
  1 <= xNum -> 0 <= yNum ->
  (max_r c - base c) * yNum <= base c * Z.of_nat fuel ->
  exists max_height finals s,
    pavPattern_with rng render c fuel xNum yNum (boot layers) =
      Ret ((max_height, finals), s) /\
    List.length (y_bases s) = Z.to_nat xNum /\
    Forall (fun y => base c * yNum <= y <= max_r c * yNum /\ y <= max_height) (y_bases s) /\
    In max_height (y_bases s).
Proof.
  intros Hv Heps Hnb Hx Hy Hfuel.
  destruct (run_effect rng render c fuel xNum yNum layers nb Hv Heps Hnb Hx Hfuel)
    as (s1 & m & finals & s & gap_ps & Hs1 & Hcols & Em & Hrun & Hcl & _).
  pose proof (stacked_heights rng render c nb xNum (range yNum) s1 Hv Hnb Hs1 Hcols) as Hh.
  destruct (max_of_spec _ _ Em) as [Hin Hmax].
  exists m, finals, s. split; [exact Hrun|].
  rewrite (cl_y_bases _ _ _ Hcl). split; [exact (st_len _ _ _ _ Hs1)|].
  split; [|exact Hin].
  rewrite Forall_forall in *. intros y Hyin.
  destruct (Hh y Hyin) as [Hb _]. unfold range in Hb.
  rewrite length_seq, Z2Nat.id in Hb by lia.
  split; [exact Hb | now apply Hmax].
Qed.

Lemma stacked_heights_between_witness :
  exists max_height finals s,
    pavPattern_with (tape []) (always true) shipped 150 10 30 (boot []) =
      Ret ((max_height, finals), s) /\
    List.length (y_bases s) = Z.to_nat 10 /\
    Forall (fun y => base shipped * 30 <= y <= max_r shipped * 30 /\ y <= max_height)
           (y_bases s) /\
    In max_height (y_bases s).
Proof.
  apply (stacked_heights_between (tape []) (always true) shipped 150 10 30 [] 6).
  - split; cbn; lia.
  - reflexivity.
  - reflexivity.
  - lia.
  - lia.
  - cbn. lia.
Defined.

Lemma recorded_stacked ps :
  Forall (fun p => exists b, p_site p = Stacked b) ps ->
  flat_map recorded ps = map p_srf ps.
Proof.
  induction 1 as [|p ps [b Hb] _ IH]; cbn; [reflexivity|].
  unfold recorded at 1. now rewrite Hb, IH.
Qed.

Lemma recorded_gap bh ps :
  Forall (fun p => gap_panel bh (p_col p) p) ps ->
  Forall (fun e => e <> None) (flat_map recorded ps).
Proof.
  induction 1 as [|p ps [_ Hp] _ IH]; cbn; [constructor|].
  apply Forall_app. split; [|exact IH].
  unfold recorded. destruct (p_site p); [contradiction| | |];
    destruct (p_srf p); repeat constructor; discriminate.
Qed.

(** X12.  The list the script returns starts with one entry per stacked
    panel, [xNum * yNum] of them in the order of the requests, null where
    the surface was not created; whatever follows comes from the gap-closing
    phase and is never null. *)
Theorem returned_list_shape
    (rng : nat -> nat) (render : nat -> bool) (c : config) (fuel : nat)
    (xNum yNum : Z) (layers : list string) (nb : Z) :
  valid c -> guard_eps < base c ->
  num_buckets c = Some nb ->
  1 <= xNum -> 0 <= yNum ->
  (max_r c - base c) * yNum <= base c * Z.of_nat fuel ->
  exists r s stack_ps gap_ps,
    pavPattern_with rng render c fuel xNum yNum (boot layers) = Ret (r, s) /\
    panels (trace s) = stack_ps ++ gap_ps /\
    List.length stack_ps = Z.to_nat (xNum * yNum) /\
    firstn (Z.to_nat (xNum * yNum)) (srfs s) = map p_srf stack_ps /\
    Forall (fun e => e <> None) (skipn (Z.to_nat (xNum * yNum)) (srfs s)).
Proof.
  intros Hv Heps Hnb Hx Hy Hfuel.
  destruct (run_effect rng render c fuel xNum yNum layers nb Hv Heps Hnb Hx Hfuel)
    as (s1 & m & finals & s & gap_ps & Hs1 & Hcols & _ & Hrun & Hcl & _ & Hgap & _).
  assert (Hlen : List.length (panels (trace s1)) = Z.to_nat (xNum * yNum)).
  { rewrite <- (length_map p_col), Hcols, rows_length. unfold range.
    rewrite !length_seq. lia. }
  assert (Hst : flat_map recorded (panels (trace s1)) = map p_srf (panels (trace s1))).
  { apply recorded_stacked. eapply Forall_impl; [|exact (st_panels _ _ _ _ Hs1)].
    cbn. intros p (_ & b & Hb & _). now exists b. }
  exists (m, finals), s, (panels (trace s1)), gap_ps.
  split; [exact Hrun|]. split; [exact (cl_panels _ _ _ Hcl)|].
  split; [exact Hlen|].
  rewrite (cl_srfs _ _ _ Hcl), (st_srfs _ _ _ _ Hs1), Hst.
  assert (Hl : List.length (map p_srf (panels (trace s1))) = Z.to_nat (xNum * yNum))
    by now rewrite length_map.
  rewrite <- Hl, firstn_app, skipn_app, firstn_all, skipn_all, Nat.sub_diag.
  cbn [firstn skipn app]. split; [apply app_nil_r|].
  apply (recorded_gap (bucket_heights c nb)).
  eapply Forall_impl; [|exact Hgap]. cbn. tauto.
Qed.

Lemma returned_list_shape_witness :
  exists r s stack_ps gap_ps,
    pavPattern_with draws_1_2 third_fails shipped 10 2 1 (boot []) = Ret (r, s) /\
    panels (trace s) = stack_ps ++ gap_ps /\
    List.length stack_ps = Z.to_nat (2 * 1) /\
    firstn (Z.to_nat (2 * 1)) (srfs s) = map p_srf stack_ps /\
    Forall (fun e => e <> None) (skipn (Z.to_nat (2 * 1)) (srfs s)).
Proof.
  apply (returned_list_shape draws_1_2 third_fails shipped 10 2 1 [] 6).
  - split; cbn; lia.
  - reflexivity.
  - reflexivity.
  - lia.
  - lia.
  - cbn. lia.
Defined.

Lemma column_snoc_other i p ps : p_col p <> i -> column i (ps ++ [p]) = column i ps.
Proof.
  intros Hp. rewrite column_app. cbn.
  destruct (Nat.eqb_spec (p_col p) i); [contradiction | apply app_nil_r].
Qed.

(** X13.  The gap-closing phase leaves alone every column that stands less
    than 0.001 below [max_height] after stacking, so the tallest column in
    particular: such a column ends the run with its stacked panels and
    nothing else, and a gap below 0.001 stays open. *)
Theorem top_columns_get_nothing
    (rng : nat -> nat) (render : nat -> bool) (c : config) (fuel : nat)
    (xNum yNum : Z) (layers : list string) (nb : Z) :
  valid c -> guard_eps < base c ->
  num_buckets c = Some nb ->
  1 <= xNum ->
  (max_r c - base c) * yNum <= base c * Z.of_nat fuel ->
  exists max_height finals s,
    pavPattern_with rng render c fuel xNum yNum (boot layers) =
      Ret ((max_height, finals), s) /\
    (exists i, (i < Z.to_nat xNum)%nat /\ nth i (y_bases s) 0 = max_height) /\
    forall i, (i < Z.to_nat xNum)%nat ->
      max_height - nth i (y_bases s) 0 < guard_eps ->
      Forall (fun p => exists b, p_site p = Stacked b) (column i (panels (trace s))) /\
      top 0 (column i (panels (trace s))) = nth i (y_bases s) 0.
Proof.
  intros Hv Heps Hnb Hx Hfuel.
  destruct (run_effect rng render c fuel xNum yNum layers nb Hv Heps Hnb Hx Hfuel)
    as (_ & m & finals & s & _ & _ & _ & _ & Hrun & _).
  exists m, finals, s. split; [exact Hrun|].
  destruct (run_returns rng render _ _ _ _ _ _ _ Hrun) as (nb' & s1 & Hnb' & H1 & H2).
  rewrite Hnb in Hnb'. injection Hnb' as <-.
  set (bh := bucket_heights c nb) in *.
  assert (Hs1 : stacked nb bh (Z.to_nat xNum) s1).
  { destruct (boot_stacked nb bh xNum layers) as [_ Hs0].
    assert (Hlook : forall b, 1 <= b <= nb -> lookup bh b <> None).
    { intros b Hb. unfold bh. now rewrite lookup_bucket. }
    destruct (stacker_effect rng render nb bh xNum yNum _
                (num_buckets_pos c nb Hv Hnb) Hlook Hs0)
      as (s1' & new & Hrun1 & Hst & _).
    rewrite Hrun1 in H1. now injection H1 as <-. }
  destruct (max_of (y_bases s1)) as [M|] eqn:Em.
  2:{ unfold gap_closer, bind, max_y_bases in H2. rewrite Em in H2. discriminate. }
  set (near := fun i : nat => M - nth i (y_bases s1) 0 < guard_eps).
  set (Inv := fun t : state =>
                y_bases t = y_bases s1 /\
                forall i, near i ->
                  column i (panels (trace t)) = column i (panels (trace s1))).
  set (Q := fun (i : nat) (cy : Z) => near i -> cy = nth i (y_bases s1) 0).
  destruct (gap_closer_keeps rng render Inv Q fuel bh xNum s1 (m, finals) s)
    as [[Hy Hcols] Hm]; [| | |exact H2|].
  - intros M' HM'. rewrite Em in HM'. injection HM' as <-. split.
    + intros i cy gap t f t' Hq -> Hg [Hyt Hct] Hstep.
      assert (Hfar : ~ near i).
      { intros Hn. specialize (Hq Hn). unfold near in Hn. lia. }
      apply close_step_returns in Hstep. cbv zeta in Hstep.
      destruct Hstep as (p & _ & Hcl & _ & Hp & _). split.
      * split; [now rewrite (cl_y_bases _ _ _ Hcl)|].
        intros i0 Hn. rewrite (cl_panels _ _ _ Hcl), column_snoc_other; [now apply Hct|].
        rewrite Hp. intros ->. contradiction.
      * intros y g _ Hn. contradiction.
    + intros i cy gap t u t' Hq -> Hg [Hyt Hct] Hstep.
      assert (Hfar : ~ near i).
      { intros Hn. specialize (Hq Hn). unfold near in Hn. lia. }
      apply residual_guard_returns in Hstep.
      destruct Hstep as [[_ ->]|[_ Hstep]]; [now split|].
      cbv zeta in Hstep. destruct Hstep as (_ & Hcl & _). split.
      * now rewrite (cl_y_bases _ _ _ Hcl).
      * intros i0 Hn. rewrite (cl_panels _ _ _ Hcl), column_snoc_other; [now apply Hct|].
        cbn. intros ->. contradiction.
  - intros M' _ i t y0 [Hyt _] Hn _. rewrite Hyt in Hn.
    symmetry. now apply nth_error_nth.
  - split; [reflexivity|]. intros i _. reflexivity.
  - rewrite Em in Hm. cbn in Hm. injection Hm as ->.
    destruct (max_of_spec _ _ Em) as [Hin _]. split.
    + destruct (In_nth _ _ 0 Hin) as (i & Hi & Ei).
      exists i. rewrite Hy, <- (st_len _ _ _ _ Hs1). now split.
    + intros i Hi Hn. rewrite Hy in *. rewrite (Hcols i Hn).
      destruct (st_piles _ _ _ _ Hs1 i Hi) as [_ Htop].
      split; [|now symmetry].
      apply Forall_forall. intros p Hp. apply column_In in Hp. destruct Hp as [Hp _].
      pose proof (st_panels _ _ _ _ Hs1) as Hall. rewrite Forall_forall in Hall.
      destruct (Hall p Hp) as (_ & b & Hb & _). now exists b.
Qed.

Lemma top_columns_get_nothing_witness :
  exists max_height finals s,
    pavPattern_with draws_1_2 third_fails shipped 10 2 1 (boot []) =
      Ret ((max_height, finals), s) /\
    (exists i, (i < Z.to_nat 2)%nat /\ nth i (y_bases s) 0 = max_height) /\
    forall i, (i < Z.to_nat 2)%nat ->
      max_height - nth i (y_bases s) 0 < guard_eps ->
      Forall (fun p => exists b, p_site p = Stacked b) (column i (panels (trace s))) /\
      top 0 (column i (panels (trace s))) = nth i (y_bases s) 0.
Proof.
  apply (top_columns_get_nothing draws_1_2 third_fails shipped 10 2 1 [] 6).
  - split; cbn; lia.
  - reflexivity.
  - reflexivity.
  - lia.
  - cbn. lia.
Defined.

(** * The script's own call *)

(** X14.  The call the script ends with, [pavPattern(10, 30)], returns
    whatever the random draws, the renderer and the layers of the document
    are; 150 passes of the gap loop per column are enough.  The list it
    returns has at least 300 entries, and [max_height] lies between 15 and
    90. *)
Theorem script_call_returns
    (rng : nat -> nat) (render : nat -> bool) (layers : list string) :
  exists max_height finals s,
    pavPattern_with rng render shipped 150 10 30 (boot layers) =
      Ret ((max_height, finals), s) /\
    pavPattern rng render 150 10 30 layers = Ret (srfs s) /\
    (300 <= List.length (srfs s))%nat /\
    15000000 <= max_height <= 90000000.
Proof.
  assert (Hv : valid shipped) by (split; cbn; lia).
  destruct (run_effect rng render shipped 150 10 30 layers 6 Hv eq_refl eq_refl)
    as (s1 & m & finals & s & gap_ps & Hs1 & Hcols & Em & Hrun & Hcl & _);
    [lia | cbn; lia |].
  exists m, finals, s. split; [exact Hrun|].
  split; [unfold pavPattern; now rewrite Hrun|]. split.
  - rewrite (cl_srfs _ _ _ Hcl), (st_srfs _ _ _ _ Hs1), length_app.
    rewrite recorded_stacked.
    + rewrite length_map, <- (length_map p_col), Hcols, rows_length.
      unfold range. rewrite !length_seq. lia.
    + eapply Forall_impl; [|exact (st_panels _ _ _ _ Hs1)].
      cbn. intros p (_ & b & Hb & _). now exists b.
  - pose proof (stacked_heights rng render shipped 6 10 (range 30) s1 Hv eq_refl Hs1 Hcols)
      as Hh.
    destruct (max_of_spec _ _ Em) as [Hin _].
    rewrite Forall_forall in Hh. destruct (Hh m Hin) as [Hb _].
    unfold range in Hb. rewrite length_seq, Z2Nat.id in Hb by lia.
    cbn [shipped base max_r] in Hb. lia.
Qed.
